(** * A shallow embedding of the RAG + tool chat service

    The development follows the Python sources file by file:
    - [app/sessions.py]      : the in-memory [SessionManager];
    - [app/rag/tools.py]     : the two tools, their specs and [execute_tool];
    - [app/rag/retriever.py] : [retrieve] and [build_context];
    - [app/rag/prompt.py]    : [build_system_prompt];
    - [app/main.py]          : [_extract_text_from_blocks],
                               [_run_llm_with_tools] and the [chat] endpoint.

    Python code that mutates the session dictionary, calls external services
    and may raise is written in a state-and-exception monad [M].  A raised
    exception does not undo earlier mutations, exactly as in Python.  The
    external collaborators (the Anthropic client, the Chroma collection, the
    embedding model, the clock and the builtin [repr]) are the fields of an
    environment record [Env]; every theorem holds for all environments.

    Strings: a Python [str] is modelled by [string], each character being read
    as one code point below 256. *)

From stdpp Require Import base option list strings gmap pretty.
From Stdlib Require Import ZArith Ascii String Lia.

Open Scope Z_scope.
Set Warnings "-register-all,-notation-for-abbreviation".

(** ** Python values, exceptions and results *)

(** JSON-like values carried by tool arguments and tool results.  A [dict] is
    an insertion-ordered list of bindings. *)
Inductive pyval : Type :=
  | VNone
  | VBool (b : bool)
  | VInt (z : Z)
  | VStr (s : string)
  | VList (l : list pyval)
  | VDict (d : list (string * pyval)).

Notation pydict := (list (string * pyval)).

(** The exceptions that occur in the modelled code.  All of them are
    subclasses of Python's [Exception].  [APIStatusError] stands for that
    class of the Anthropic client and its subclasses; [OtherException] for an
    exception of any class outside the ones listed (a connection error or a
    timeout of the client, an error of the vector store, ...). *)
Inductive PyExc : Type :=
  | KeyError (arg : string)
  | TypeError (msg : string)
  | IndexError (msg : string)
  | APIStatusError (msg : string)
  | HTTPException (status_code : Z) (detail : string)
  | OtherException (cls msg : string).

Inductive Result (A : Type) : Type :=
  | Ok (a : A)
  | Raise (e : PyExc).
Arguments Ok {A} a.
Arguments Raise {A} e.

#[global] Instance Result_ret : MRet Result := λ A a, Ok a.
#[global] Instance Result_bind : MBind Result := λ A B f r,
  match r with Ok a => f a | Raise e => Raise e end.

(** ** Messages, content blocks and completion requests *)

(** A content block of a model response: [type == "text"], [type ==
    "tool_use"], or any other type. *)
Inductive Block : Type :=
  | TextBlock (text : string)
  | ToolUseBlock (id name : string) (input : pydict)
  | OtherBlock.

Record ToolResultBlock : Type := mkToolResultBlock {
  tool_use_id : string;
  tr_content : string
}.

(** The ["content"] entry of a message dictionary: plain text, the raw blocks
    of a model response, or a list of [tool_result] blocks. *)
Inductive Content : Type :=
  | CText (s : string)
  | CBlocks (bs : list Block)
  | CToolResults (rs : list ToolResultBlock).

Record Message : Type := mkMessage {
  role : string;
  content : Content
}.

Record Schema : Type := mkSchema {
  properties : list (string * (string * string));
  required : list string
}.

Record ToolSpec : Type := mkToolSpec {
  spec_name : string;
  description : string;
  input_schema : Schema
}.

Record Request : Type := mkRequest {
  model : string;
  max_tokens : Z;
  system : string;
  messages : list Message;
  tools : option (list ToolSpec)
}.

Record QueryResult (F Md : Type) : Type := mkQueryResult {
  documents : option (list (list string));
  distances : option (list (list F));
  metadatas : option (list (list Md))
}.
Arguments mkQueryResult {F Md}.
Arguments documents {F Md}.
Arguments distances {F Md}.
Arguments metadatas {F Md}.

(** ** The environment *)

Record Env : Type := mkEnv {
  (** state of everything outside the process *)
  ExtState : Type;
  Float : Type;
  Metadata : Type;
  Collection : Type;
  (** [anthropic_client.messages.create] *)
  messages_create : Request → ExtState → Result (list Block) * ExtState;
  (** [get_collection], [model.encode([text])[0].tolist()], [collection.query] *)
  get_collection : ExtState → Result Collection * ExtState;
  encode : string → ExtState → Result (list Float) * ExtState;
  collection_query :
    Collection → list Float → Z → ExtState →
    Result (QueryResult Float Metadata) * ExtState;
  (** [str(date.today())] *)
  date_today : ExtState → string;
  (** the builtin [repr], and the format specifier [:.4f] *)
  py_repr : pyval → string;
  format_4f : Float → string
}.

(** ** Events and the world *)

Inductive Event : Type :=
  | EvCreate (req : Request)
  | EvExecute (name : string) (arguments : pydict)
  | EvHandler (name : string).

Record World (env : Env) : Type := mkWorld {
  sessions : gmap string (list Message);
  ext : ExtState env;
  trace : list Event
}.
Arguments mkWorld {env}.
Arguments sessions {env}.
Arguments ext {env}.
Arguments trace {env}.

(** ** The monad of Python computations *)

Definition M (env : Env) (A : Type) : Type := World env → Result A * World env.

#[global] Instance M_ret env : MRet (M env) := λ A a w, (Ok a, w).
#[global] Instance M_bind env : MBind (M env) := λ A B f m w,
  match m w with
  | (Ok a, w') => f a w'
  | (Raise e, w') => (Raise e, w')
  end.

Definition raise {env A} (e : PyExc) : M env A := λ w, (Raise e, w).

(** [try: m / except cls as exc: h exc]: an exception of another class
    propagates. *)
Definition try_except {env A}
    (m : M env A) (cls : PyExc → bool) (h : PyExc → M env A) : M env A :=
  λ w, match m w with
       | (Ok a, w') => (Ok a, w')
       | (Raise e, w') => if cls e then h e w' else (Raise e, w')
       end.

(** the exception classes named in [except] clauses *)
Definition class_Exception (e : PyExc) : bool := true.

Definition class_APIStatusError (e : PyExc) : bool :=
  match e with APIStatusError _ => true | _ => false end.

Definition lift_result {env A} (r : Result A) : M env A := λ w, (r, w).

Definition emit {env} (ev : Event) : M env unit :=
  λ w, (Ok tt, mkWorld (sessions w) (ext w) (trace w ++ [ev])).

(** run an external call on the outside state *)
Definition external {env A}
    (f : ExtState env → Result A * ExtState env) : M env A :=
  λ w, let '(r, x) := f (ext w) in (r, mkWorld (sessions w) x (trace w)).

Definition read_ext {env A} (f : ExtState env → A) : M env A :=
  λ w, (Ok (f (ext w)), w).

(** ** Python builtins on strings *)

Definition nl : string := String (ascii_of_nat 10) EmptyString.

(** [str.isspace] on the code points below 256 *)
Definition is_space (c : ascii) : bool :=
  let n := nat_of_ascii c in
  ((9 <=? n) && (n <=? 13) || (28 <=? n) && (n <=? 32)
   || (n =? 133) || (n =? 160))%nat.

Fixpoint lstrip (s : string) : string :=
  match s with
  | EmptyString => EmptyString
  | String c s' => if is_space c then lstrip s' else s
  end.

Fixpoint rstrip (s : string) : string :=
  match s with
  | EmptyString => EmptyString
  | String c s' =>
      match rstrip s' with
      | EmptyString => if is_space c then EmptyString else String c EmptyString
      | r => String c r
      end
  end.

(** [s.strip()] *)
Definition strip (s : string) : string := rstrip (lstrip s).

(** [sep.join(parts)] *)
Definition join (sep : string) (parts : list string) : string :=
  String.concat sep parts.

(** truthiness of a [str] *)
Definition str_truthy (s : string) : bool :=
  match s with EmptyString => false | String _ _ => true end.

(** [str(exc)]: a [KeyError] prints the [repr] of its argument *)
Definition str_exc (env : Env) (e : PyExc) : string :=
  match e with
  | KeyError arg => py_repr env (VStr arg)
  | TypeError msg => msg
  | IndexError msg => msg
  | APIStatusError msg => msg
  | HTTPException code detail => pretty code +:+ ": " +:+ detail
  | OtherException _ msg => msg
  end.

(** [str(v)] *)
Definition py_str (env : Env) (v : pyval) : string :=
  match v with
  | VStr s => s
  | _ => py_repr env v
  end.

(** [len(v)] *)
Definition py_len (v : pyval) : Result Z :=
  match v with
  | VStr s => Ok (Z.of_nat (String.length s))
  | VList l => Ok (Z.of_nat (List.length l))
  | VDict d => Ok (Z.of_nat (List.length d))
  | VNone => Raise (TypeError "object of type 'NoneType' has no len()")
  | VBool _ => Raise (TypeError "object of type 'bool' has no len()")
  | VInt _ => Raise (TypeError "object of type 'int' has no len()")
  end.

(** [v[:n]] *)
Definition py_slice_to (n : nat) (v : pyval) : Result pyval :=
  match v with
  | VStr s => Ok (VStr (String.substring 0 n s))
  | VList l => Ok (VList (take n l))
  | VDict _ => Raise (TypeError "unhashable type: 'slice'")
  | VNone => Raise (TypeError "'NoneType' object is not subscriptable")
  | VBool _ => Raise (TypeError "'bool' object is not subscriptable")
  | VInt _ => Raise (TypeError "'int' object is not subscriptable")
  end.

(** ** app/sessions.py *)

(** [self._sessions.setdefault(session_id, [])]: an unseen id is bound to a
    fresh empty list, and the list bound to the id is returned. *)
Definition get_history {env} (session_id : string) : M env (list Message) :=
  λ w, match sessions w !! session_id with
       | Some history => (Ok history, w)
       | None =>
           (Ok [], mkWorld (<[session_id := []]> (sessions w)) (ext w) (trace w))
       end.

(** [history.append(msg)] on the list object bound to [session_id]: the list
    is shared with the dictionary, so the stored history grows. *)
Definition history_append {env} (session_id : string) (msg : Message) : M env unit :=
  λ w, (Ok tt,
        mkWorld (alter (λ history, history ++ [msg]) session_id (sessions w))
                (ext w) (trace w)).

Definition append_user {env} (session_id text : string) : M env unit :=
  _ ← get_history session_id;
  history_append session_id (mkMessage "user" (CText text)).

Definition append_assistant {env} (session_id text : string) : M env unit :=
  _ ← get_history session_id;
  history_append session_id (mkMessage "assistant" (CText text)).

(** ** app/rag/tools.py *)

Definition get_order_status {env} (order_id : pyval) : M env pyval :=
  emit (EvHandler "get_order_status");;
  today ← read_ext (date_today env);
  mret (VDict [("order_id", order_id);
               ("status", VStr "shipped");
               ("estimated_delivery", VStr today);
               ("carrier", VStr "Acme Logistics")]).

(** The [logger.info] call evaluates [len(message)] before the dictionary is
    built. *)
Definition send_email {env} (recipient_email message : pyval) : M env pyval :=
  emit (EvHandler "send_email");;
  _ ← lift_result (py_len message);
  preview ← lift_result (py_slice_to 60 message);
  mret (VDict [("success", VBool true);
               ("recipient", recipient_email);
               ("message_preview", preview);
               ("detail", VStr "Email sent (simulated).")]).

(** A Python function with one or two required parameters. *)
Inductive Callable (env : Env) : Type :=
  | Fun1 (fname p1 : string) (f : pyval → M env pyval)
  | Fun2 (fname p1 p2 : string) (f : pyval → pyval → M env pyval).
Arguments Fun1 {env}.
Arguments Fun2 {env}.

Definition fun_name {env} (c : Callable env) : string :=
  match c with Fun1 n _ _ => n | Fun2 n _ _ _ => n end.

Definition fun_params {env} (c : Callable env) : list string :=
  match c with Fun1 _ p _ => [p] | Fun2 _ p1 p2 _ => [p1; p2] end.

(** lookup of a key in a dictionary given by its list of bindings *)
Fixpoint assoc {A} (k : string) (d : list (string * A)) : option A :=
  match d with
  | [] => None
  | (k', v) :: d' => if decide (k' = k) then Some v else assoc k d'
  end.

Definition dict_get (k : string) (d : pydict) : option pyval := assoc k d.

Definition dict_keys (d : pydict) : list string := d.*1.

Definition in_list (k : string) (ks : list string) : bool :=
  bool_decide (k ∈ ks).

Definition quoted (s : string) : string := "'" +:+ s +:+ "'".

(** the list of names in a "missing arguments" message: ['a'], ['a' and 'b'],
    ['a', 'b', and 'c'], ... *)
Fixpoint format_many (names : list string) : string :=
  match names with
  | [] => ""
  | [a] => quoted a
  | [a; b] => quoted a +:+ ", and " +:+ quoted b
  | a :: names' => quoted a +:+ ", " +:+ format_many names'
  end.

Definition format_missing (names : list string) : string :=
  match names with
  | [a] => quoted a
  | [a; b] => quoted a +:+ " and " +:+ quoted b
  | _ => format_many names
  end.

Definition unexpected_keyword (fname k : string) : PyExc :=
  TypeError (fname +:+ "() got an unexpected keyword argument " +:+ quoted k).

Definition missing_arguments (fname : string) (names : list string) : PyExc :=
  TypeError (fname +:+ "() missing " +:+ pretty (List.length names)
             +:+ " required positional argument"
             +:+ (if bool_decide (List.length names = 1%nat) then "" else "s")
             +:+ ": " +:+ format_missing names).

(** [func] called with [arguments] unpacked as keyword arguments: the
    keywords are bound to the parameters; a keyword
    that names no parameter, or a parameter left without a value, raises
    [TypeError] before the body runs. *)
Definition call_kwargs {env} (func : Callable env) (arguments : pydict) : M env pyval :=
  match filter (λ k, k ∉ fun_params func) (dict_keys arguments) with
  | k :: _ => raise (unexpected_keyword (fun_name func) k)
  | [] =>
      let missing := filter (λ p, p ∉ dict_keys arguments) (fun_params func) in
      match func with
      | Fun1 fname p1 f =>
          match dict_get p1 arguments with
          | Some a => f a
          | None => raise (missing_arguments fname missing)
          end
      | Fun2 fname p1 p2 f =>
          match dict_get p1 arguments, dict_get p2 arguments with
          | Some a, Some b => f a b
          | _, _ => raise (missing_arguments fname missing)
          end
      end
  end.

Definition _TOOL_FUNCTIONS {env} : list (string * Callable env) :=
  [("get_order_status", Fun1 "get_order_status" "order_id" get_order_status);
   ("send_email", Fun2 "send_email" "recipient_email" "message" send_email)].

Definition get_tool_specs : list ToolSpec :=
  [mkToolSpec "get_order_status"
     "Look up the current shipping status for a specific order_id."
     (mkSchema
        [("order_id", ("string", "Opaque identifier of the order."))]
        ["order_id"]);
   mkToolSpec "send_email"
     "Send an email message to a recipient (simulated)."
     (mkSchema
        [("recipient_email", ("string", "Destination email address."));
         ("message", ("string", "Plain text content to send."))]
        ["recipient_email"; "message"])].

Definition registry_lookup {env} (name : string) : option (Callable env) :=
  assoc name _TOOL_FUNCTIONS.

Definition execute_tool {env} (name : string) (arguments : pydict) : M env pyval :=
  emit (EvExecute name arguments);;
  match registry_lookup name with
  | None => raise (KeyError ("Unknown tool: " +:+ name))
  | Some func => call_kwargs func arguments
  end.

(** ** app/rag/retriever.py *)

Record Hit (F Md : Type) : Type := mkHit {
  hit_text : string;
  hit_score : F;
  hit_metadata : Md
}.
Arguments mkHit {F Md}.
Arguments hit_text {F Md}.
Arguments hit_score {F Md}.
Arguments hit_metadata {F Md}.

(** [get_embedder()] and [model.encode([text])[0].tolist()] *)
Definition embed_text {env} (text : string) : M env (list (Float env)) :=
  external (encode env text).

(** [results.get(key, [[]])[0]] *)
Definition first_row {A} (field : option (list (list A))) : Result (list A) :=
  match default [[]] field with
  | row :: _ => Ok row
  | [] => Raise (IndexError "list index out of range")
  end.

(** [zip(documents, distances, metadatas)] stops at the shortest list *)
Fixpoint zip_hits {F Md} (documents : list string) (distances : list F)
    (metadatas : list Md) : list (Hit F Md) :=
  match documents, distances, metadatas with
  | doc :: documents', dist :: distances', meta :: metadatas' =>
      mkHit doc dist meta :: zip_hits documents' distances' metadatas'
  | _, _, _ => []
  end.

Definition retrieve {env} (query : string) (k : Z)
    : M env (list (Hit (Float env) (Metadata env))) :=
  collection ← external (get_collection env);
  query_embedding ← embed_text query;
  results ← external (collection_query env collection query_embedding k);
  documents ← lift_result (first_row (documents results));
  distances ← lift_result (first_row (distances results));
  metadatas ← lift_result (first_row (metadatas results));
  mret (zip_hits documents distances metadatas).

(** one entry of [parts], for the hit numbered [i] *)
Definition format_hit {env} (i : nat) (hit : Hit (Float env) (Metadata env)) : string :=
  "[Document " +:+ pretty i +:+ " | score=" +:+ format_4f env (hit_score hit)
  +:+ "]" +:+ nl +:+ hit_text hit.

(** the loop over [enumerate(hits, start=i)] *)
Fixpoint format_hits {env} (i : nat) (hits : list (Hit (Float env) (Metadata env)))
    : list string :=
  match hits with
  | [] => []
  | hit :: hits' => format_hit i hit :: format_hits (S i) hits'
  end.

Definition build_context {env} (query : string) (k : Z) : M env string :=
  hits ← retrieve query k;
  mret (join (nl +:+ nl) (format_hits 1 hits)).

(** ** app/rag/prompt.py *)

Definition NO_CONTEXT_RETRIEVED : string := "NO CONTEXT RETRIEVED".

(** the template up to the context block; the two non-breaking hyphens of
    the template are kept as the source file has them *)
Definition prompt_head : string := "
You are **HelpBot**, a concise and friendly e‑commerce customer support agent.

Capabilities:
- Answer user questions about orders, returns, shipping, and payments.
- Use the retrieved knowledge base context below when relevant.
- May call tools (get_order_status, send_email) when they help answer the query.

Grounding Rules:
1. Prefer information from the *Retrieved Context* section. If the answer is directly
   present there, summarize it in your own words.
2. If the user requests an action that maps to a tool, call the appropriate tool.
3. If context is empty or does not contain the answer, you may still answer from
   general reasoning, but clearly say when something is not found.
4. Before calling a tool, ensure required parameters are present. If missing,
   ask the user to provide them.
5. After receiving tool output, incorporate it into a natural language reply.

Retrieved Context:
------------------
".

(** the template after the context block *)
Definition prompt_tail : string := "

Respond helpfully. If clarification is needed, ask a follow‑up question.
Do **not** invent order IDs or email addresses.
".

(** [context_block or 'NO CONTEXT RETRIEVED'] inside the template *)
Definition build_system_prompt (context_block : string) : string :=
  prompt_head
  +:+ (if str_truthy context_block then context_block else NO_CONTEXT_RETRIEVED)
  +:+ prompt_tail.

(** ** app/main.py *)

Definition ANTHROPIC_MODEL : string := "claude-3-5-sonnet-20240620".
Definition MAX_TOKENS : Z := 500.

Record ChatRequest : Type := mkChatRequest {
  session_id : string;
  message : string
}.

(** an entry of [tool_calls] *)
Record ToolCall : Type := mkToolCall {
  tc_name : string;
  tc_arguments : pydict;
  tc_result : pyval
}.

Record ChatResponse : Type := mkChatResponse {
  answer : string;
  tool_calls : list ToolCall
}.

Definition _format_history_for_llm (history : list Message) : list Message :=
  (λ m, mkMessage (role m) (content m)) <$> history.

(** the loop collecting [b.text] of the blocks with [type == "text"] *)
Fixpoint text_blocks (blocks : list Block) : list string :=
  match blocks with
  | [] => []
  | TextBlock text :: blocks' => text :: text_blocks blocks'
  | _ :: blocks' => text_blocks blocks'
  end.

Definition _extract_text_from_blocks (blocks : list Block) : string :=
  strip (join nl (text_blocks blocks)).

(** [anthropic_client.messages.create(...)] *)
Definition create {env} (req : Request) : M env (list Block) :=
  emit (EvCreate req);;
  external (messages_create env req).

(** the dictionary recorded when a tool raises *)
Definition error_result (env : Env) (exc : PyExc) : pyval :=
  VDict [("error", VStr (str_exc env exc))].

(** the loop over [first_response.content], with its two accumulators *)
Fixpoint run_tool_blocks {env} (blocks : list Block)
    (tool_calls : list ToolCall) (tool_results_blocks : list ToolResultBlock)
    : M env (list ToolCall * list ToolResultBlock) :=
  match blocks with
  | [] => mret (tool_calls, tool_results_blocks)
  | ToolUseBlock id name input :: blocks' =>
      result ← try_except (execute_tool name input) class_Exception
                 (λ exc, mret (error_result env exc));
      run_tool_blocks blocks'
        (tool_calls ++ [mkToolCall name input result])
        (tool_results_blocks ++ [mkToolResultBlock id (py_str env result)])
  | _ :: blocks' => run_tool_blocks blocks' tool_calls tool_results_blocks
  end.

Definition first_request (system_prompt : string) (messages : list Message) : Request :=
  mkRequest ANTHROPIC_MODEL MAX_TOKENS system_prompt messages (Some get_tool_specs).

Definition followup_request (system_prompt : string) (messages : list Message)
    (first_response : list Block) (tool_results_blocks : list ToolResultBlock)
    : Request :=
  mkRequest ANTHROPIC_MODEL MAX_TOKENS system_prompt
    (messages ++ [mkMessage "assistant" (CBlocks first_response);
                  mkMessage "user" (CToolResults tool_results_blocks)])
    None.

Definition _run_llm_with_tools {env} (system_prompt : string)
    (messages : list Message) : M env ChatResponse :=
  first_response ← create (first_request system_prompt messages);
  '(tool_calls, tool_results_blocks) ← run_tool_blocks first_response [] [];
  answer_text ←
    match tool_results_blocks with
    | _ :: _ =>
        second_response ←
          create (followup_request system_prompt messages first_response
                    tool_results_blocks);
        mret (_extract_text_from_blocks second_response)
    | [] => mret (_extract_text_from_blocks first_response)
    end;
  mret (mkChatResponse answer_text tool_calls).

Definition chat {env} (req : ChatRequest) : M env ChatResponse :=
  if negb (str_truthy (strip (message req))) then
    raise (HTTPException 400 "Message cannot be empty.")
  else
    append_user (session_id req) (message req);;
    context_block ← build_context (message req) 3;
    let system_prompt := build_system_prompt context_block in
    history ← get_history (session_id req);
    let messages := _format_history_for_llm history in
    result ← try_except (_run_llm_with_tools system_prompt messages)
               class_APIStatusError
               (λ api_err,
                  raise (HTTPException 500
                           ("Anthropic API error: " +:+ str_exc env api_err)));
    append_assistant (session_id req) (answer result);;
    mret (mkChatResponse (answer result) (tool_calls result)).

(** ** app/load_data.py *)

(** [len(s)] *)
Definition str_len (s : string) : Z := Z.of_nat (String.length s).

(** a slice bound brought into the range of valid positions: a negative
    bound counts from the end, and every bound is clamped *)
Definition slice_index (len i : Z) : Z :=
  if i <? 0 then Z.max (i + len) 0 else Z.min i len.

(** [s[lo:hi]] *)
Definition py_slice (s : string) (lo hi : Z) : string :=
  let lo' := slice_index (str_len s) lo in
  let hi' := slice_index (str_len s) hi in
  String.substring (Z.to_nat lo') (Z.to_nat (hi' - lo')) s.

(** The [while] loop of [chunk_text], run for at most [fuel] iterations;
    [None] when the loop has not ended by then. *)
Fixpoint chunk_loop (fuel : nat) (text : string) (chunk_size overlap start : Z)
    (chunks : list string) : option (list string) :=
  match fuel with
  | O => None
  | S fuel' =>
      if start <? str_len text then
        let end_ := start + chunk_size in
        let chunk := py_slice text start end_ in
        chunk_loop fuel' text chunk_size overlap
          (start + (chunk_size - overlap)) (chunks ++ [strip chunk])
      else Some chunks
  end.

Definition chunk_text_fuel (fuel : nat) (text : string) (chunk_size overlap : Z)
    : option (list string) :=
  chunks ← chunk_loop fuel text chunk_size overlap 0 [];
  Some (filter (λ c, str_truthy c = true) chunks).

(** [chunk_text(text, chunk_size, overlap)]; [None] stands for a call that
    never returns.  The loop is given one more iteration than the text has
    characters: [chunk_text_adequate] shows that this loses no run that
    ends, and [chunk_text_diverges] that [None] is a loop without end. *)
Definition chunk_text (text : string) (chunk_size overlap : Z)
    : option (list string) :=
  chunk_text_fuel (S (String.length text)) text chunk_size overlap.

Definition LOADER_CHROMA_PATH : string := "chroma_db".
Definition LOADER_COLLECTION_NAME : string := "knowledge".
Definition LOADER_MODEL_NAME : string := "sentence-transformers/all-MiniLM-L6-v2".

(** The collaborators of the loading script: the embedding model, the file
    [knowledge_base.txt] and the Chroma client. *)
Record LoaderEnv : Type := mkLoaderEnv {
  LState : Type;
  Embedder : Type;
  Client : Type;
  Handle : Type;
  Vector : Type;
  (** [SentenceTransformer(name)] *)
  sentence_transformer : string → LState → Result Embedder * LState;
  (** [SOURCE_FILE.exists()], [SOURCE_FILE.resolve()], [SOURCE_FILE.read_text] *)
  source_exists : LState → bool;
  source_resolved : LState → string;
  source_read_text : LState → Result string * LState;
  (** [chromadb.PersistentClient(path=...)] and the calls on it *)
  persistent_client : string → LState → Result Client * LState;
  delete_collection : Client → string → LState → Result unit * LState;
  create_collection :
    Client → string → list (string * string) → LState → Result Handle * LState;
  (** [embedder.encode(chunks, ...)], each vector turned into a list *)
  encode_chunks : Embedder → list string → LState → Result (list Vector) * LState;
  collection_add :
    Handle → list string → list string → list Vector →
    list (list (string * string)) → LState → Result unit * LState
}.

(** the external calls of the script, as recorded *)
Inductive LoaderEvent : Type :=
  | LvModel (name : string)
  | LvRead
  | LvClient (path : string)
  | LvDelete (name : string)
  | LvCreate (name : string) (metadata : list (string * string))
  | LvEncode (chunks : list string)
  | LvAdd (ids documents : list string) (metadatas : list (list (string * string))).

Record LoaderWorld (lenv : LoaderEnv) : Type := mkLoaderWorld {
  lstate : LState lenv;
  ltrace : list LoaderEvent
}.
Arguments mkLoaderWorld {lenv}.
Arguments lstate {lenv}.
Arguments ltrace {lenv}.

(** computations of the script: [None] stands for a run that never returns *)
Definition L (lenv : LoaderEnv) (A : Type) : Type :=
  LoaderWorld lenv → option (Result A * LoaderWorld lenv).

#[global] Instance L_ret lenv : MRet (L lenv) := λ A a w, Some (Ok a, w).
#[global] Instance L_bind lenv : MBind (L lenv) := λ A B f m w,
  match m w with
  | Some (Ok a, w') => f a w'
  | Some (Raise e, w') => Some (Raise e, w')
  | None => None
  end.

(** an external call, recorded in the trace before it is made *)
Definition lcall {lenv A} (ev : LoaderEvent)
    (f : LState lenv → Result A * LState lenv) : L lenv A :=
  λ w, let '(r, s) := f (lstate w) in
       Some (r, mkLoaderWorld s (ltrace w ++ [ev])).

Definition lraise {lenv A} (e : PyExc) : L lenv A := λ w, Some (Raise e, w).

(** a pure call that may not return *)
Definition lreturns {lenv A} (o : option A) : L lenv A :=
  λ w, match o with Some a => Some (Ok a, w) | None => None end.

(** [try: m / except Exception: h] *)
Definition ltry {lenv A} (m : L lenv A) (h : L lenv A) : L lenv A :=
  λ w, match m w with
       | Some (Raise _, w') => h w'
       | other => other
       end.

Definition read_source_text {lenv} : L lenv string :=
  λ w, if source_exists lenv (lstate w)
       then lcall LvRead (source_read_text lenv) w
       else lraise (OtherException "FileNotFoundError"
                      ("Knowledge base file not found: "
                       +:+ source_resolved lenv (lstate w))) w.

(** [[f"doc_{i}" for i in range(n)]] *)
Definition doc_ids (n : nat) : list string :=
  (λ i, "doc_" +:+ pretty i) <$> seq 0 n.

(** [[{"source": f"chunk_{i}"} for i in range(n)]] *)
Definition chunk_metadatas (n : nat) : list (list (string * string)) :=
  (λ i, [("source", "chunk_" +:+ pretty i)]) <$> seq 0 n.

(** [main()] of the loading script; its logging calls are left out *)
Definition loader_main {lenv} : L lenv unit :=
  embedder ← lcall (LvModel LOADER_MODEL_NAME)
                (sentence_transformer lenv LOADER_MODEL_NAME);
  full_text ← read_source_text;
  chunks ← lreturns (chunk_text full_text 500 100);
  client ← lcall (LvClient LOADER_CHROMA_PATH)
             (persistent_client lenv LOADER_CHROMA_PATH);
  ltry (lcall (LvDelete LOADER_COLLECTION_NAME)
          (delete_collection lenv client LOADER_COLLECTION_NAME))
       (mret tt);;
  collection ← lcall (LvCreate LOADER_COLLECTION_NAME [("hnsw:space", "cosine")])
                 (create_collection lenv client LOADER_COLLECTION_NAME
                    [("hnsw:space", "cosine")]);
  embeddings ← lcall (LvEncode chunks) (encode_chunks lenv embedder chunks);
  let ids := doc_ids (List.length chunks) in
  let metadatas := chunk_metadatas (List.length chunks) in
  lcall (LvAdd ids chunks metadatas)
    (collection_add lenv collection ids chunks embeddings metadatas).

(** ** app/logging_config.py *)

(** The part of the [logging] module the function relies on: the upper-case
    form of a level name, and the exception [setLevel] raises for a name it
    does not know ([None] for a known name). *)
Record LogEnv : Type := mkLogEnv {
  str_upper : string → string;
  level_error : string → option PyExc
}.

(** a [StreamHandler] with its stream and the two strings of its formatter *)
Record LogHandler : Type := mkLogHandler {
  lh_stream : string;
  lh_fmt : string;
  lh_datefmt : string
}.

(** the state of the [logging] module: the root logger, and the levels set
    on named loggers *)
Record Logging : Type := mkLogging {
  root_handlers : list LogHandler;
  root_level : string;
  logger_levels : gmap string string
}.

Definition configure_logging (lg : LogEnv) (level : string) (st : Logging)
    : Result unit * Logging :=
  match root_handlers st with
  | _ :: _ => (Ok tt, st)
  | [] =>
      match level_error lg (str_upper lg level) with
      | Some exc => (Raise exc, st)
      | None =>
          let handler :=
            mkLogHandler "sys.stdout"
              "[%(asctime)s] %(levelname)s %(name)s: %(message)s"
              "%Y-%m-%d %H:%M:%S" in
          (Ok tt,
           mkLogging (root_handlers st ++ [handler]) (str_upper lg level)
             (<["sentence_transformers" := "WARNING"]>
                (<["chromadb" := "WARNING"]> (logger_levels st))))
      end
  end.

(** ** Notions used in the further properties *)

(** every character of the string is whitespace *)
Fixpoint all_space (s : string) : bool :=
  match s with
  | EmptyString => true
  | String c s' => is_space c && all_space s'
  end.

(** a string that does not begin with whitespace *)
Definition starts_clean (s : string) : bool :=
  match s with
  | EmptyString => true
  | String c _ => negb (is_space c)
  end.

(** the trimmed window of [chunk_size] characters that begins at [start] *)
Definition window (text : string) (chunk_size start : Z) : string :=
  strip (py_slice text start (start + chunk_size)).

(** the number of windows whose start lies inside the text, for a step of
    [chunk_size - overlap] characters *)
Definition window_count (text : string) (chunk_size overlap : Z) : nat :=
  Z.to_nat ((str_len text + (chunk_size - overlap) - 1) / (chunk_size - overlap)).

(** the windows that begin at [start], [start + step], ..., [n] of them *)
Fixpoint windows_from (text : string) (chunk_size overlap : Z) (n : nat)
    (start : Z) : list string :=
  match n with
  | O => []
  | S n' => window text chunk_size start
            :: windows_from text chunk_size overlap n' (start + (chunk_size - overlap))
  end.

(** the number of windows whose start lies between [start] and the end *)
Definition left_from (text : string) (chunk_size overlap start : Z) : nat :=
  Z.to_nat ((str_len text - start + (chunk_size - overlap) - 1)
            / (chunk_size - overlap)).

(** the non-empty trimmed windows, in order of their start *)
Definition expected_chunks (text : string) (chunk_size overlap : Z) : list string :=
  filter (λ c, str_truthy c = true)
    ((λ k : nat, window text chunk_size (Z.of_nat k * (chunk_size - overlap)))
       <$> seq 0 (window_count text chunk_size overlap)).

(** the loader events in a trace that change the vector store *)
Definition store_change (ev : LoaderEvent) : bool :=
  match ev with
  | LvDelete _ | LvCreate _ _ | LvAdd _ _ _ => true
  | _ => false
  end.

(** ** A scripted loader for the examples *)

Record LoaderScript : Type := mkLoaderScript {
  source_file : option string;
  delete_reply : Result unit
}.

Definition scripted_loader : LoaderEnv := {|
  LState := LoaderScript;
  Embedder := unit;
  Client := unit;
  Handle := unit;
  Vector := nat;
  sentence_transformer := λ _ st, (Ok tt, st);
  source_exists := λ st, bool_decide (is_Some (source_file st));
  source_resolved := λ _, "/srv/app/knowledge_base.txt";
  source_read_text := λ st, (Ok (default "" (source_file st)), st);
  persistent_client := λ _ st, (Ok tt, st);
  delete_collection := λ _ _ st, (delete_reply st, st);
  create_collection := λ _ _ _ st, (Ok tt, st);
  encode_chunks := λ _ chunks st, (Ok (String.length <$> chunks), st);
  collection_add := λ _ _ _ _ _ st, (Ok tt, st)
|}.

Definition loader_start (file : option string) (d : Result unit)
    : LoaderWorld scripted_loader :=
  @mkLoaderWorld scripted_loader (mkLoaderScript file d) [].

Definition no_collection : Result unit :=
  Raise (OtherException "ValueError" "Collection knowledge does not exist.").

(** a [logging] module that knows the standard level names; its upper-case
    form only maps the letters [a] to [z] *)
Definition ascii_upper (c : ascii) : ascii :=
  let n := nat_of_ascii c in
  if ((97 <=? n) && (n <=? 122))%nat then ascii_of_nat (n - 32) else c.

Fixpoint string_upper (s : string) : string :=
  match s with
  | EmptyString => EmptyString
  | String c s' => String (ascii_upper c) (string_upper s')
  end.

Definition scripted_logging : LogEnv := {|
  str_upper := string_upper;
  level_error := λ name,
    if bool_decide (name ∈ ["CRITICAL"; "FATAL"; "ERROR"; "WARN"; "WARNING";
                            "INFO"; "DEBUG"; "NOTSET"])
    then None
    else Some (OtherException "ValueError" ("Unknown level: " +:+ quoted name))
|}.

Definition logging_start : Logging := mkLogging [] "WARNING" ∅.

(** ** Observations used in the statements *)

(** the [tool_use] blocks of a response, in response order *)
Fixpoint tool_uses (blocks : list Block) : list (string * string * pydict) :=
  match blocks with
  | [] => []
  | ToolUseBlock id name input :: blocks' => (id, name, input) :: tool_uses blocks'
  | _ :: blocks' => tool_uses blocks'
  end.

(** the calls of [execute_tool] recorded in a trace, in call order *)
Fixpoint executions (tr : list Event) : list (string * pydict) :=
  match tr with
  | [] => []
  | EvExecute name arguments :: tr' => (name, arguments) :: executions tr'
  | _ :: tr' => executions tr'
  end.

(** the completion requests recorded in a trace, in call order *)
Fixpoint creations (tr : list Event) : list Request :=
  match tr with
  | [] => []
  | EvCreate req :: tr' => req :: creations tr'
  | _ :: tr' => creations tr'
  end.

(** the handler bodies entered, in order *)
Fixpoint handlers_entered (tr : list Event) : list string :=
  match tr with
  | [] => []
  | EvHandler name :: tr' => name :: handlers_entered tr'
  | _ :: tr' => handlers_entered tr'
  end.

(** a world with no session and an empty trace around an outside state *)
Definition bare {env} (x : ExtState env) : World env := mkWorld ∅ x [].

(** what [execute_tool name arguments] returns or raises when the outside
    state is [x], and the events it records *)
Definition tool_outcome (env : Env) (x : ExtState env) (name : string)
    (arguments : pydict) : Result pyval :=
  (execute_tool name arguments (bare x)).1.

Definition tool_trace (env : Env) (x : ExtState env) (name : string)
    (arguments : pydict) : list Event :=
  trace (execute_tool name arguments (bare x)).2.

(** the value stored under ["result"] for a [tool_use] block *)
Definition recorded_result (env : Env) (x : ExtState env) (name : string)
    (arguments : pydict) : pyval :=
  match tool_outcome env x name arguments with
  | Ok v => v
  | Raise exc => error_result env exc
  end.

Definition calls_of (env : Env) (x : ExtState env) (blocks : list Block)
    : list ToolCall :=
  (λ u, mkToolCall u.1.2 u.2 (recorded_result env x u.1.2 u.2)) <$> tool_uses blocks.

Definition results_of (env : Env) (x : ExtState env) (blocks : list Block)
    : list ToolResultBlock :=
  (λ u, mkToolResultBlock u.1.1 (py_str env (recorded_result env x u.1.2 u.2)))
    <$> tool_uses blocks.

Definition tool_traces (env : Env) (x : ExtState env) (blocks : list Block)
    : list Event :=
  mjoin ((λ u, tool_trace env x u.1.2 u.2) <$> tool_uses blocks).

(** the history stored for a session; an unseen session has none *)
Definition history_of {env} (session_id : string) (w : World env) : list Message :=
  default [] (sessions w !! session_id).

(** the world once the user message of a request has been appended *)
Definition after_user {env} (req : ChatRequest) (w : World env) : World env :=
  (append_user (session_id req) (message req) w).2.

(** the two kinds of stored messages *)
Definition user_message (req : ChatRequest) : Message :=
  mkMessage "user" (CText (message req)).

Definition assistant_message (text : string) : Message :=
  mkMessage "assistant" (CText text).

(** the messages sent to the model for a request *)
Definition turn_messages {env} (req : ChatRequest) (w : World env) : list Message :=
  _format_history_for_llm (history_of (session_id req) (after_user req w)).

(** how [chat] reports an exception raised by [_run_llm_with_tools] *)
Definition surfaced (env : Env) (e : PyExc) : PyExc :=
  if class_APIStatusError e
  then HTTPException 500 ("Anthropic API error: " +:+ str_exc env e)
  else e.

(** every stored message is a plain-text message of the user or the assistant *)
Definition plain_message (m : Message) : Prop :=
  (role m = "user" ∨ role m = "assistant") ∧ ∃ s, content m = CText s.

Definition store_ok {env} (w : World env) : Prop :=
  ∀ sid history, sessions w !! sid = Some history → Forall plain_message history.

(** a sequence of requests served one after the other, whatever each returns *)
Fixpoint serve {env} (reqs : list ChatRequest) (w : World env) : World env :=
  match reqs with
  | [] => w
  | req :: reqs' => serve reqs' (chat req w).2
  end.

(** *** What the collaborators answer during a turn *)

(** retrieval for the request ends with [rc], leaving the world [w2] *)
Definition retrieval_gives {env} (req : ChatRequest) (w : World env)
    (rc : Result string) (w2 : World env) : Prop :=
  build_context (message req) 3 (after_user req w) = (rc, w2).

(** the first completion request of a turn whose context is [context_block] *)
Definition turn_first {env} (req : ChatRequest) (w : World env)
    (context_block : string) : Request :=
  first_request (build_system_prompt context_block) (turn_messages req w).

(** retrieval returns [context_block] and the first completion call then
    ends with [r1], leaving the outside state [x1] *)
Definition first_completion_gives {env} (req : ChatRequest) (w : World env)
    (context_block : string) (r1 : Result (list Block)) (x1 : ExtState env) : Prop :=
  ∃ w2, retrieval_gives req w (Ok context_block) w2
        ∧ messages_create env (turn_first req w context_block) (ext w2) = (r1, x1).

(** the follow-up request of a turn whose first response is [first], the
    tools having run in the outside state [x1] *)
Definition turn_followup {env} (req : ChatRequest) (w : World env)
    (context_block : string) (first : list Block) (x1 : ExtState env) : Request :=
  followup_request (build_system_prompt context_block) (turn_messages req w)
    first (results_of env x1 first).

(** the first completion returns [first], which asks for tools, and the
    follow-up completion call then ends with [r2] *)
Definition second_completion_gives {env} (req : ChatRequest) (w : World env)
    (context_block : string) (first : list Block) (x1 : ExtState env)
    (r2 : Result (list Block)) (x2 : ExtState env) : Prop :=
  first_completion_gives req w context_block (Ok first) x1
  ∧ tool_uses first ≠ []
  ∧ messages_create env (turn_followup req w context_block first x1) x1 = (r2, x2).

(** *** Keys of a tool call against the declared schema *)

(** every required key is supplied and every supplied key is declared *)
Definition keys_match (schema : Schema) (arguments : pydict) : bool :=
  forallb (λ p, in_list p (dict_keys arguments)) (required schema)
  && forallb (λ k, in_list k (properties schema).*1) (dict_keys arguments).

(** *** Sequences of appends *)

Inductive Append : Type :=
  | AppendUser (text : string)
  | AppendAssistant (text : string).

Definition appended (a : Append) : Message :=
  match a with
  | AppendUser text => mkMessage "user" (CText text)
  | AppendAssistant text => mkMessage "assistant" (CText text)
  end.

Fixpoint do_appends {env} (session_id : string) (ops : list Append) : M env unit :=
  match ops with
  | [] => mret tt
  | AppendUser text :: ops' =>
      append_user session_id text;; do_appends session_id ops'
  | AppendAssistant text :: ops' =>
      append_assistant session_id text;; do_appends session_id ops'
  end.

(** ** A scripted environment for the examples

    The model answers with the replies of a script, in order; retrieval
    returns a fixed result.  Its [repr] abridges containers. *)

Record Script : Type := mkScript {
  replies : list (Result (list Block));
  query_reply : Result (QueryResult Z unit)
}.

Definition scripted_create (req : Request) (st : Script)
    : Result (list Block) * Script :=
  match replies st with
  | r :: rest => (r, mkScript rest (query_reply st))
  | [] => (Raise (OtherException "APIConnectionError" "Connection error."), st)
  end.

Definition scripted_repr (v : pyval) : string :=
  match v with
  | VNone => "None"
  | VBool true => "True"
  | VBool false => "False"
  | VInt z => pretty z
  | VStr s => quoted s
  | VList _ => "[...]"
  | VDict _ => "{...}"
  end.

Definition scripted_env : Env := {|
  ExtState := Script;
  Float := Z;
  Metadata := unit;
  Collection := unit;
  messages_create := scripted_create;
  get_collection := λ st, (Ok tt, st);
  encode := λ _ st, (Ok [], st);
  collection_query := λ _ _ _ st, (query_reply st, st);
  date_today := λ _, "2025-07-01";
  py_repr := scripted_repr;
  format_4f := λ z, pretty z
|}.

Definition no_snippets : Result (QueryResult Z unit) :=
  Ok (mkQueryResult (Some [[]]) (Some [[]]) (Some [[]])).

Definition store_down : Result (QueryResult Z unit) :=
  Raise (OtherException "ValueError" "Collection knowledge does not exist.").

(** a world of [scripted_env] with no session yet *)
Definition fresh (rs : list (Result (list Block)))
    (q : Result (QueryResult Z unit)) : World scripted_env :=
  @bare scripted_env (mkScript rs q).

Definition order_request : ChatRequest :=
  mkChatRequest "s1" "Where is my order 123?".

Definition order_tool_use : Block :=
  ToolUseBlock "toolu_01" "get_order_status" [("order_id", VStr "123")].

Definition unknown_tool_use : Block := ToolUseBlock "toolu_02" "unknown_tool" [].

(** [s] occurs in [t] *)
Definition occurs_in (s t : string) : Prop :=
  ∃ before after, t = before +:+ s +:+ after.

(** a chunk as [chunk_text] produces them *)
Definition good_chunk (text : string) (chunk_size : Z) (c : string) : Prop :=
  strip c = c ∧ occurs_in c text
  ∧ (0 ≤ chunk_size → Z.of_nat (String.length c) ≤ chunk_size).

(** * Proofs *)

Ltac run :=
  unfold mbind, mret, M_bind, M_ret, Result_bind, Result_ret, emit, raise,
    lift_result, read_ext, external, try_except, class_Exception; simpl.

Section frame.
Context (env : Env).

Lemma call_kwargs_frame (func : Callable env) arguments (w : World env) :
  (∀ a w, match func with
          | Fun1 _ _ f => f a w = ((f a (bare (ext w))).1,
               mkWorld (sessions w) (ext w) (trace w ++ trace (f a (bare (ext w))).2))
          | Fun2 _ _ _ f => ∀ b, f a b w = ((f a b (bare (ext w))).1,
               mkWorld (sessions w) (ext w) (trace w ++ trace (f a b (bare (ext w))).2))
          end) →
  call_kwargs func arguments w =
    ((call_kwargs func arguments (bare (ext w))).1,
     mkWorld (sessions w) (ext w)
       (trace w ++ trace (call_kwargs func arguments (bare (ext w))).2)).
Proof.
  intros Hf. unfold call_kwargs.
  destruct (filter _ (dict_keys arguments)); run.
  - destruct func as [fname p1 f|fname p1 p2 f].
    + destruct (dict_get p1 arguments) as [a|]; run.
      * apply (Hf a w).
      * rewrite app_nil_r. by destruct w.
    + destruct (dict_get p1 arguments) as [a|],
               (dict_get p2 arguments) as [b|]; run;
        try (rewrite app_nil_r; by destruct w).
      apply (Hf a w b).
  - rewrite app_nil_r. by destruct w.
Qed.

Lemma execute_tool_frame name arguments (w : World env) :
  execute_tool name arguments w =
    (tool_outcome env (ext w) name arguments,
     mkWorld (sessions w) (ext w)
       (trace w ++ tool_trace env (ext w) name arguments)).
Proof.
  unfold tool_outcome, tool_trace, execute_tool, registry_lookup. run.
  destruct (decide ("get_order_status" = name)) as [<-|_];
    [|destruct (decide ("send_email" = name)) as [<-|_]].
  - rewrite call_kwargs_frame by (intros; unfold get_order_status; by run).
    simpl. rewrite (call_kwargs_frame _ _ (mkWorld _ _ [_]))
      by (intros; unfold get_order_status; by run).
    simpl. by rewrite <- app_assoc.
  - rewrite call_kwargs_frame.
    2:{ intros a w' b. unfold send_email. run. destruct (py_len b); simpl; [|done].
        destruct (py_slice_to 60 b); by simpl. }
    simpl. rewrite (call_kwargs_frame _ _ (mkWorld _ _ [_])).
    2:{ intros a w' b. unfold send_email. run. destruct (py_len b); simpl; [|done].
        destruct (py_slice_to 60 b); by simpl. }
    simpl. by rewrite <- app_assoc.
  - done.
Qed.

Lemma tool_trace_head x name arguments :
  ∃ evs, tool_trace env x name arguments = EvExecute name arguments :: evs
         ∧ executions evs = [] ∧ creations evs = []
         ∧ (evs = [] ∨ evs = [EvHandler name]).
Proof.
  unfold tool_trace, execute_tool, registry_lookup. run.
  assert (Hk : ∀ (func : Callable env) w,
    (∀ a w, match func with
            | Fun1 n _ f => ∃ r, f a w = (r, mkWorld (sessions w) (ext w) (trace w ++ [EvHandler n]))
            | Fun2 n _ _ f => ∀ b, ∃ r, f a b w = (r, mkWorld (sessions w) (ext w) (trace w ++ [EvHandler n]))
            end) →
    trace (call_kwargs func arguments w).2 = trace w
    ∨ trace (call_kwargs func arguments w).2 = trace w ++ [EvHandler (fun_name func)]).
  { intros func w Hf. unfold call_kwargs.
    destruct (filter _ (dict_keys arguments)); run; [|by left].
    destruct func as [fname p1 f|fname p1 p2 f]; simpl.
    - destruct (dict_get p1 arguments) as [a|]; run; [|by left].
      destruct (Hf a w) as [r ->]. by right.
    - destruct (dict_get p1 arguments) as [a|],
               (dict_get p2 arguments) as [b|]; run; try by left.
      destruct (Hf a w b) as [r ->]. by right. }
  destruct (decide ("get_order_status" = name)) as [<-|_];
    [|destruct (decide ("send_email" = name)) as [<-|_]].
  - edestruct (Hk (Fun1 "get_order_status" "order_id" get_order_status)) as [->| ->];
      [intros; unfold get_order_status; run; eauto|..]; eexists; (split; [done|]); simpl; eauto.
  - edestruct (Hk (Fun2 "send_email" "recipient_email" "message" send_email)) as [->| ->];
      [|eexists; (split; [done|]); simpl; eauto..].
    intros a w b. unfold send_email. run. destruct (py_len b); simpl; [|eauto].
    destruct (py_slice_to 60 b); simpl; eauto.
  - exists []. simpl. auto.
Qed.

Lemma executions_app tr1 tr2 :
  executions (tr1 ++ tr2) = executions tr1 ++ executions tr2.
Proof. induction tr1 as [|[] tr1 IH]; simpl; by rewrite ?IH. Qed.

Lemma creations_app tr1 tr2 :
  creations (tr1 ++ tr2) = creations tr1 ++ creations tr2.
Proof. induction tr1 as [|[] tr1 IH]; simpl; by rewrite ?IH. Qed.

Lemma executions_tool_traces x blocks :
  executions (tool_traces env x blocks) = (λ u, (u.1.2, u.2)) <$> tool_uses blocks.
Proof.
  unfold tool_traces. induction (tool_uses blocks) as [|[[id name] input] us IH]; [done|].
  csimpl. rewrite executions_app, IH.
  destruct (tool_trace_head x name input) as (evs & -> & Hex & _). simpl.
  by rewrite Hex.
Qed.

Lemma creations_tool_traces x blocks : creations (tool_traces env x blocks) = [].
Proof.
  unfold tool_traces. induction (tool_uses blocks) as [|[[id name] input] us IH]; [done|].
  csimpl. rewrite creations_app, IH.
  destruct (tool_trace_head x name input) as (evs & -> & _ & Hcr & _). simpl.
  by rewrite Hcr.
Qed.

(** The loop over the blocks never raises: it records one entry and one
    [tool_result] block per [tool_use] block, and touches nothing but the
    trace. *)
Lemma run_tool_blocks_spec blocks tcs trs (w : World env) :
  run_tool_blocks blocks tcs trs w =
    (Ok (tcs ++ calls_of env (ext w) blocks, trs ++ results_of env (ext w) blocks),
     mkWorld (sessions w) (ext w) (trace w ++ tool_traces env (ext w) blocks)).
Proof.
  revert tcs trs w. induction blocks as [|b blocks IH]; intros tcs trs w.
  - unfold calls_of, results_of, tool_traces. run.
    rewrite !app_nil_r. by destruct w.
  - destruct b as [text|id name input|]; simpl; [apply IH| |apply IH].
    unfold mbind at 1, M_bind at 1. unfold try_except.
    rewrite execute_tool_frame.
    unfold calls_of, results_of, tool_traces, recorded_result in *. simpl.
    destruct (tool_outcome env (ext w) name input) as [v|exc]; simpl;
      rewrite IH; simpl; by rewrite <- !app_assoc.
Qed.

Lemma create_spec req (w : World env) :
  create req w =
    ((messages_create env req (ext w)).1,
     mkWorld (sessions w) (messages_create env req (ext w)).2
       (trace w ++ [EvCreate req])).
Proof. unfold create. run. by destruct (messages_create env req (ext w)). Qed.

Lemma run_llm_first_raises sp msgs (w : World env) e x1 :
  messages_create env (first_request sp msgs) (ext w) = (Raise e, x1) →
  _run_llm_with_tools sp msgs w =
    (Raise e, mkWorld (sessions w) x1 (trace w ++ [EvCreate (first_request sp msgs)])).
Proof.
  intros H. unfold _run_llm_with_tools.
  unfold mbind at 1, M_bind at 1. by rewrite create_spec, H.
Qed.

Lemma run_llm_no_tools sp msgs (w : World env) blocks x1 :
  messages_create env (first_request sp msgs) (ext w) = (Ok blocks, x1) →
  tool_uses blocks = [] →
  _run_llm_with_tools sp msgs w =
    (Ok (mkChatResponse (_extract_text_from_blocks blocks) []),
     mkWorld (sessions w) x1 (trace w ++ [EvCreate (first_request sp msgs)])).
Proof.
  intros H Hu. unfold _run_llm_with_tools.
  unfold mbind at 1, M_bind at 1. rewrite create_spec, H. simpl.
  unfold mbind at 1, M_bind at 1. rewrite run_tool_blocks_spec.
  unfold calls_of, results_of, tool_traces. rewrite Hu. simpl.
  run. by rewrite app_nil_r.
Qed.

Lemma run_llm_with_tools sp msgs (w : World env) blocks x1 r2 x2 :
  messages_create env (first_request sp msgs) (ext w) = (Ok blocks, x1) →
  tool_uses blocks ≠ [] →
  messages_create env
    (followup_request sp msgs blocks (results_of env x1 blocks)) x1 = (r2, x2) →
  _run_llm_with_tools sp msgs w =
    (match r2 with
     | Ok second_response =>
         Ok (mkChatResponse (_extract_text_from_blocks second_response)
               (calls_of env x1 blocks))
     | Raise e => Raise e
     end,
     mkWorld (sessions w) x2
       (trace w ++ [EvCreate (first_request sp msgs)]
        ++ tool_traces env x1 blocks
        ++ [EvCreate (followup_request sp msgs blocks (results_of env x1 blocks))])).
Proof.
  intros H Hu H2. unfold _run_llm_with_tools.
  unfold mbind at 1, M_bind at 1. rewrite create_spec, H. simpl.
  unfold mbind at 1, M_bind at 1. rewrite run_tool_blocks_spec. simpl.
  destruct (results_of env x1 blocks) as [|tr trs] eqn:Hr.
  { unfold results_of in Hr. by destruct (tool_uses blocks). }
  unfold mbind at 1, M_bind at 1. unfold mbind at 1, M_bind at 1.
  rewrite create_spec. simpl. rewrite H2. simpl.
  rewrite <- !app_assoc. by destruct r2.
Qed.

(** *** The session store *)

Lemma get_history_spec sid (w : World env) :
  get_history sid w =
    (Ok (history_of sid w),
     mkWorld (<[sid := history_of sid w]> (sessions w)) (ext w) (trace w)).
Proof.
  unfold get_history, history_of.
  destruct (sessions w !! sid) as [h|] eqn:E; simpl; [|done].
  rewrite insert_id by done. by destruct w.
Qed.

Lemma append_spec sid msg (w : World env) :
  (_ ← get_history sid; history_append sid msg) w =
    (Ok tt,
     mkWorld (<[sid := history_of sid w ++ [msg]]> (sessions w)) (ext w) (trace w)).
Proof.
  unfold mbind, M_bind. rewrite get_history_spec. unfold history_append. simpl.
  do 2 f_equal. apply map_eq. intros k.
  rewrite lookup_alter, !lookup_insert. by repeat case_decide; simplify_eq.
Qed.

Lemma append_user_spec sid text (w : World env) :
  append_user sid text w =
    (Ok tt,
     mkWorld (<[sid := history_of sid w ++ [mkMessage "user" (CText text)]]> (sessions w))
       (ext w) (trace w)).
Proof. apply append_spec. Qed.

Lemma append_assistant_spec sid text (w : World env) :
  append_assistant sid text w =
    (Ok tt,
     mkWorld (<[sid := history_of sid w ++ [mkMessage "assistant" (CText text)]]>
                (sessions w))
       (ext w) (trace w)).
Proof. apply append_spec. Qed.

Lemma history_of_insert sid h (m : gmap string (list Message)) (x : ExtState env) tr :
  history_of sid (mkWorld (<[sid := h]> m) x tr) = h.
Proof. unfold history_of. simpl. by rewrite lookup_insert_eq. Qed.

Lemma format_history_id history : _format_history_for_llm history = history.
Proof.
  unfold _format_history_for_llm. induction history as [|[] h IH]; csimpl; [done|].
  by rewrite IH.
Qed.

(** *** Retrieval touches neither the sessions nor the trace *)

Lemma retrieve_frame query k (w : World env) :
  ∃ r x, retrieve query k w = (r, mkWorld (sessions w) x (trace w)).
Proof.
  unfold retrieve, embed_text. run.
  destruct (get_collection env (ext w)) as [[c|e] x1]; simpl; [|eauto].
  destruct (encode env query x1) as [[v|e] x2]; simpl; [|eauto].
  destruct (collection_query env c v k x2) as [[res|e] x3]; simpl; [|eauto].
  destruct (first_row (documents res)); simpl; [|eauto].
  destruct (first_row (distances res)); simpl; [|eauto].
  destruct (first_row (metadatas res)); simpl; eauto.
Qed.

Lemma build_context_frame query k (w : World env) :
  ∃ r x, build_context query k w = (r, mkWorld (sessions w) x (trace w)).
Proof.
  unfold build_context. unfold mbind, M_bind.
  destruct (retrieve_frame query k w) as (r & x & ->).
  destruct r; run; eauto.
Qed.

(** *** One turn of [chat], step by step *)

Lemma chat_blank req (w : World env) :
  strip (message req) = "" →
  chat req w = (Raise (HTTPException 400 "Message cannot be empty."), w).
Proof. intros H. unfold chat. by rewrite H. Qed.

Lemma chat_turn req (w : World env) rc w2 :
  strip (message req) ≠ "" →
  build_context (message req) 3 (after_user req w) = (rc, w2) →
  chat req w =
    match rc with
    | Raise e => (Raise e, w2)
    | Ok context_block =>
        match _run_llm_with_tools (build_system_prompt context_block)
                (turn_messages req w) w2 with
        | (Raise e, w3) => (Raise (surfaced env e), w3)
        | (Ok result, w3) =>
            (Ok result, (append_assistant (session_id req) (answer result) w3).2)
        end
    end.
Proof.
  intros Hne Hc. unfold chat.
  destruct (strip (message req)) eqn:Hs; [done|]. simpl.
  unfold after_user in Hc. unfold mbind at 1, M_bind at 1.
  destruct (append_user (session_id req) (message req) w) as [r1 w1] eqn:Hu.
  rewrite append_user_spec in Hu. injection Hu as <- Hw1. simpl in Hc.
  unfold mbind at 1, M_bind at 1. rewrite Hc.
  destruct rc as [ctx|e]; [|done].
  destruct (build_context_frame (message req) 3 w1) as (r & x & Hf).
  rewrite Hf in Hc. injection Hc as -> <-.
  unfold mbind at 1, M_bind at 1. rewrite get_history_spec. simpl.
  unfold turn_messages, after_user. rewrite append_user_spec. simpl.
  subst w1. simpl. rewrite !history_of_insert. rewrite insert_insert_eq.
  unfold mbind at 1, M_bind at 1. unfold try_except.
  destruct (_run_llm_with_tools _ _ _) as [[res|e] w3]; simpl.
  - unfold mbind at 1, M_bind at 1.
    destruct (append_assistant _ _ w3) as [ra w4] eqn:Ha.
    rewrite append_assistant_spec in Ha. injection Ha as <- <-.
    run. by destruct res.
  - unfold surfaced. by destruct (class_APIStatusError e).
Qed.

Lemma run_llm_frame sp msgs (w : World env) :
  ∃ r x evs, _run_llm_with_tools sp msgs w
             = (r, mkWorld (sessions w) x (trace w ++ evs)).
Proof.
  destruct (messages_create env (first_request sp msgs) (ext w))
    as [[blocks|e] x1] eqn:H1.
  - destruct (decide (tool_uses blocks = [])) as [Hu|Hu].
    + rewrite (run_llm_no_tools _ _ _ _ _ H1 Hu). eauto.
    + destruct (messages_create env
        (followup_request sp msgs blocks (results_of env x1 blocks)) x1)
        as [r2 x2] eqn:H2.
      rewrite (run_llm_with_tools _ _ _ _ _ _ _ H1 Hu H2). eauto.
  - rewrite (run_llm_first_raises _ _ _ _ _ H1). eauto.
Qed.

Lemma after_user_spec req (w : World env) :
  after_user req w =
    mkWorld (<[session_id req := history_of (session_id req) w ++ [user_message req]]>
               (sessions w))
      (ext w) (trace w).
Proof. unfold after_user. by rewrite append_user_spec. Qed.

(** The store after a turn that got past validation: the user message is
    kept in every case, the answer follows it when the turn succeeds. *)
Lemma chat_sessions req (w : World env) :
  strip (message req) ≠ "" →
  sessions (chat req w).2 =
    <[session_id req :=
        history_of (session_id req) w
        ++ user_message req ::
           match (chat req w).1 with
           | Ok resp => [assistant_message (answer resp)]
           | Raise _ => []
           end]> (sessions w).
Proof.
  intros Hne.
  destruct (build_context_frame (message req) 3 (after_user req w)) as (rc & x & Hc).
  rewrite (chat_turn _ _ _ _ Hne Hc). rewrite after_user_spec. simpl.
  destruct rc as [ctx|e]; [|done].
  destruct (run_llm_frame (build_system_prompt ctx) (turn_messages req w)
    (mkWorld (<[session_id req := history_of (session_id req) w ++ [user_message req]]>
                (sessions w)) x (trace w))) as ([res|e] & x' & evs & ->); [|done].
  rewrite append_assistant_spec. simpl.
  rewrite history_of_insert, insert_insert_eq. by rewrite <- app_assoc.
Qed.
End frame.

(** * The claims *)

(** ** C5: a message that is empty after trimming is rejected first *)

(** C5.  When the message is empty after [strip()], [chat] raises the
    validation error (HTTP 400) and leaves the whole world as it was: nothing
    is appended, the history of the session is unchanged, and for a session
    never seen before it still has length 0. *)
Theorem chat_rejects_empty_message env (req : ChatRequest) (w : World env) :
  strip (message req) = "" →
  chat req w = (Raise (HTTPException 400 "Message cannot be empty."), w)
  ∧ history_of (session_id req) (chat req w).2 = history_of (session_id req) w
  ∧ (sessions w !! session_id req = None →
     List.length (history_of (session_id req) (chat req w).2) = 0%nat).
Proof.
  intros H. rewrite (chat_blank env req w H). simpl. split_and!; [done..|].
  intros Hnone. unfold history_of. by rewrite Hnone.
Qed.

Lemma chat_rejects_empty_message_witness :
  let req := mkChatRequest "s1" "  " in
  let w := fresh [Ok [TextBlock "unused"]] no_snippets in
  strip (message req) = ""
  ∧ chat req w = (Raise (HTTPException 400 "Message cannot be empty."), w)
  ∧ history_of "s1" (chat req w).2 = [].
Proof.
  intros req w.
  destruct (chat_rejects_empty_message scripted_env req w) as (H1 & H2 & H3);
    [reflexivity|].
  split; [reflexivity|]. split; [exact H1|].
  etrans; [exact H2|reflexivity].
Defined.

(** ** C7: histories start empty and grow in call order *)

Lemma do_appends_spec env sid ops (w : World env) :
  ∃ w', do_appends sid ops w = (Ok tt, w')
        ∧ history_of sid w' = history_of sid w ++ (appended <$> ops).
Proof.
  revert w. induction ops as [|a ops IH]; intros w.
  - exists w. csimpl. by rewrite app_nil_r.
  - destruct a as [text|text]; simpl; unfold mbind, M_bind.
    + rewrite append_user_spec.
      destruct (IH (mkWorld
        (<[sid := history_of sid w ++ [mkMessage "user" (CText text)]]> (sessions w))
        (ext w) (trace w))) as (w' & -> & Hh).
      exists w'. split; [done|]. rewrite Hh, history_of_insert.
      csimpl. by rewrite <- app_assoc.
    + rewrite append_assistant_spec.
      destruct (IH (mkWorld
        (<[sid := history_of sid w ++ [mkMessage "assistant" (CText text)]]> (sessions w))
        (ext w) (trace w))) as (w' & -> & Hh).
      exists w'. split; [done|]. rewrite Hh, history_of_insert.
      csimpl. by rewrite <- app_assoc.
Qed.

(** C7.  (1) [get_history] of a session id that was never seen returns the
    empty list.  (2) After a [chat] call that returns a response, the history
    of its session is the previous history followed by the new user message
    and then the assistant answer, and no other session has changed.  (3) Any
    sequence of [append_user] / [append_assistant] calls on a session
    succeeds and extends its history by the appended messages in call order. *)
Theorem history_accumulates_in_call_order env :
  (∀ sid (w : World env),
     sessions w !! sid = None → (get_history sid w).1 = Ok [])
  ∧ (∀ req (w : World env) resp,
       (chat req w).1 = Ok resp →
       history_of (session_id req) (chat req w).2 =
         history_of (session_id req) w
         ++ [user_message req; assistant_message (answer resp)]
       ∧ ∀ sid, sid ≠ session_id req →
           sessions (chat req w).2 !! sid = sessions w !! sid)
  ∧ (∀ sid ops (w : World env),
       ∃ w', do_appends sid ops w = (Ok tt, w')
             ∧ history_of sid w' = history_of sid w ++ (appended <$> ops)).
Proof.
  split_and!.
  - intros sid w H. unfold get_history. by rewrite H.
  - intros req w resp Hok.
    destruct (decide (strip (message req) = "")) as [Hb|Hne].
    { rewrite (chat_blank env req w Hb) in Hok. done. }
    pose proof (chat_sessions env req w Hne) as Hs. rewrite Hok in Hs.
    split.
    + unfold history_of at 1. by rewrite Hs, lookup_insert_eq.
    + intros sid Hsid. by rewrite Hs, lookup_insert_ne.
  - apply do_appends_spec.
Qed.

Lemma history_accumulates_in_call_order_witness :
  let w := fresh [Ok [order_tool_use]; Ok [TextBlock "Your order 123 has shipped."]]
             no_snippets in
  (get_history "s1" w).1 = Ok []
  ∧ history_of "s1" (chat order_request w).2 =
      [mkMessage "user" (CText "Where is my order 123?");
       mkMessage "assistant" (CText "Your order 123 has shipped.")].
Proof.
  intros w.
  destruct (history_accumulates_in_call_order scripted_env) as (H1 & H2 & _).
  split.
  - apply H1. reflexivity.
  - destruct (H2 order_request w
      (mkChatResponse "Your order 123 has shipped."
         (calls_of scripted_env (mkScript [Ok [TextBlock "Your order 123 has shipped."]] no_snippets)
            [order_tool_use]))) as [H _].
    + vm_compute. reflexivity.
    + etrans; [exact H|]. reflexivity.
Defined.

(** ** C8: context assembly and the system prompt *)

(** C8.  When retrieval returns no hit, [build_context] returns the empty
    string.  The prompt built from the empty string is the template with the
    sentinel [NO CONTEXT RETRIEVED] in the place of the context block.  The
    prompt built from a non-empty block is the template with that block,
    unchanged, in that place. *)
Theorem context_assembly_round_trip env :
  (∀ query k (w w' : World env),
     retrieve query k w = (Ok [], w') → build_context query k w = (Ok "", w'))
  ∧ build_system_prompt "" = prompt_head +:+ NO_CONTEXT_RETRIEVED +:+ prompt_tail
  ∧ occurs_in NO_CONTEXT_RETRIEVED (build_system_prompt "")
  ∧ (∀ block, block ≠ "" →
       build_system_prompt block = prompt_head +:+ block +:+ prompt_tail
       ∧ occurs_in block (build_system_prompt block)).
Proof.
  split_and!.
  - intros query k w w' H. unfold build_context, mbind, M_bind. by rewrite H.
  - done.
  - by exists prompt_head, prompt_tail.
  - intros block Hne.
    assert (build_system_prompt block = prompt_head +:+ block +:+ prompt_tail) as ->.
    { unfold build_system_prompt. by destruct block. }
    split; [done|]. by exists prompt_head, prompt_tail.
Qed.

Lemma context_assembly_round_trip_witness :
  let w := fresh [] no_snippets in
  build_context "Where is my order 123?" 3 w = (Ok "", w)
  ∧ occurs_in "[Document 1 | score=0.2500]" (build_system_prompt "[Document 1 | score=0.2500]").
Proof.
  intros w.
  destruct (context_assembly_round_trip scripted_env) as (H1 & _ & _ & H4).
  split.
  - apply H1. reflexivity.
  - apply H4. discriminate.
Defined.

(** ** C1: a failing retrieval step *)

(** C1, as the code has it.  [chat] calls [build_context] outside any [try]:
    when retrieval raises, the same exception leaves [chat], no completion is
    requested and no tool runs (the trace is unchanged), and the store holds
    the user message appended before retrieval and no assistant reply. *)
Theorem retrieval_failure_aborts_turn env (req : ChatRequest) (w w2 : World env) e :
  strip (message req) ≠ "" →
  retrieval_gives req w (Raise e) w2 →
  chat req w = (Raise e, w2)
  ∧ sessions w2 =
      <[session_id req := history_of (session_id req) w ++ [user_message req]]>
        (sessions w)
  ∧ trace w2 = trace w.
Proof.
  intros Hne Hr. unfold retrieval_gives in Hr.
  rewrite (chat_turn env req w _ _ Hne Hr). split; [done|].
  destruct (build_context_frame env (message req) 3 (after_user req w))
    as (r & x & Hf).
  rewrite Hf in Hr. injection Hr as -> <-. by rewrite after_user_spec.
Qed.

Lemma retrieval_failure_aborts_turn_witness :
  let w := fresh [Ok [TextBlock "Hello."]] store_down in
  let e := OtherException "ValueError" "Collection knowledge does not exist." in
  (chat order_request w).1 = Raise e
  ∧ history_of "s1" (chat order_request w).2 = [user_message order_request]
  ∧ trace (chat order_request w).2 = [].
Proof.
  intros w e.
  destruct (retrieval_failure_aborts_turn scripted_env order_request w
              (build_context (message order_request) 3
                 (after_user order_request w)).2 e)
    as (H1 & H2 & H3); [discriminate|vm_compute; reflexivity|].
  rewrite H1. split; [reflexivity|]. split; reflexivity.
Defined.

(** The claim fails at this input: retrieval raises while the completion
    provider is ready to answer (with the empty context block the model call
    returns "Hello."), and yet the turn ends with the retrieval exception, no
    completion having been requested. *)
Lemma retrieval_failure_is_fatal :
  let w := fresh [Ok [TextBlock "Hello."]] store_down in
  let e := OtherException "ValueError" "Collection knowledge does not exist." in
  (build_context (message order_request) 3 (after_user order_request w)).1 = Raise e
  ∧ (_run_llm_with_tools (build_system_prompt "") (turn_messages order_request w)
       (after_user order_request w)).1 = Ok (mkChatResponse "Hello." [])
  ∧ (chat order_request w).1 = Raise e
  ∧ creations (trace (chat order_request w).2) = [].
Proof. vm_compute. done. Qed.

(** ** The three ways a turn can go once retrieval has succeeded *)

Section turn.
Context (env : Env) (req : ChatRequest) (w : World env) (context_block : string).
Hypothesis nonblank : strip (message req) ≠ "".

Lemma retrieval_keeps_trace rc w2 :
  retrieval_gives req w rc w2 →
  trace w2 = trace w ∧ sessions w2 = sessions (after_user req w).
Proof.
  unfold retrieval_gives. intros Hr.
  destruct (build_context_frame env (message req) 3 (after_user req w))
    as (r & x & Hf).
  rewrite Hf in Hr. injection Hr as -> <-. by rewrite after_user_spec.
Qed.

Lemma chat_first_raises e x1 :
  first_completion_gives req w context_block (Raise e) x1 →
  (chat req w).1 = Raise (surfaced env e)
  ∧ trace (chat req w).2 = trace w ++ [EvCreate (turn_first req w context_block)].
Proof.
  intros (w2 & Hr & H1). destruct (retrieval_keeps_trace _ _ Hr) as [Ht _].
  rewrite (chat_turn env req w _ _ nonblank Hr).
  rewrite (run_llm_first_raises env _ _ _ _ _ H1). simpl. by rewrite Ht.
Qed.

Lemma chat_no_tools blocks x1 :
  first_completion_gives req w context_block (Ok blocks) x1 →
  tool_uses blocks = [] →
  (chat req w).1 = Ok (mkChatResponse (_extract_text_from_blocks blocks) [])
  ∧ trace (chat req w).2 = trace w ++ [EvCreate (turn_first req w context_block)].
Proof.
  intros (w2 & Hr & H1) Hu. destruct (retrieval_keeps_trace _ _ Hr) as [Ht _].
  rewrite (chat_turn env req w _ _ nonblank Hr).
  rewrite (run_llm_no_tools env _ _ _ _ _ H1 Hu).
  rewrite append_assistant_spec. simpl. by rewrite Ht.
Qed.

Lemma chat_with_tools blocks x1 r2 x2 :
  second_completion_gives req w context_block blocks x1 r2 x2 →
  (chat req w).1 =
    match r2 with
    | Ok second_response =>
        Ok (mkChatResponse (_extract_text_from_blocks second_response)
              (calls_of env x1 blocks))
    | Raise e => Raise (surfaced env e)
    end
  ∧ trace (chat req w).2 =
      trace w ++ [EvCreate (turn_first req w context_block)]
      ++ tool_traces env x1 blocks
      ++ [EvCreate (turn_followup req w context_block blocks x1)].
Proof.
  intros ((w2 & Hr & H1) & Hu & H2). destruct (retrieval_keeps_trace _ _ Hr) as [Ht _].
  rewrite (chat_turn env req w _ _ nonblank Hr).
  rewrite (run_llm_with_tools env _ _ _ _ _ _ _ H1 Hu H2).
  destruct r2 as [b2|e]; simpl; [|by rewrite Ht].
  rewrite append_assistant_spec. simpl. by rewrite Ht.
Qed.
End turn.

(** ** C3: how many tools run and how many completions are requested *)

(** C3.  Let the first completion of a turn return [blocks].  The events of
    the turn contain exactly one [execute_tool] call per [tool_use] block, in
    the order of the blocks.  With no [tool_use] block the only completion
    request is the first one and the response carries no tool call.  With at
    least one, the completion requests are the first one and exactly one
    follow-up, and a response, when there is one, lists one tool call per
    [tool_use] block, with the names and arguments in the order of the
    blocks. *)
Theorem tool_round_counts env (req : ChatRequest) (w : World env) ctx blocks x1 :
  strip (message req) ≠ "" →
  first_completion_gives req w ctx (Ok blocks) x1 →
  let req1 := turn_first req w ctx in
  let asked := (λ u : string * string * pydict, (u.1.2, u.2)) <$> tool_uses blocks in
  ∃ evs, trace (chat req w).2 = trace w ++ evs
    ∧ executions evs = asked
    ∧ List.length (executions evs) = List.length (tool_uses blocks)
    ∧ (tool_uses blocks = [] →
         creations evs = [req1]
         ∧ ∃ text, (chat req w).1 = Ok (mkChatResponse text []))
    ∧ (tool_uses blocks ≠ [] →
         creations evs = [req1; turn_followup req w ctx blocks x1]
         ∧ ∀ resp, (chat req w).1 = Ok resp →
             List.length (tool_calls resp) = List.length (tool_uses blocks)
             ∧ (λ c, (tc_name c, tc_arguments c)) <$> tool_calls resp = asked).
Proof.
  intros Hne H1 req1 asked.
  destruct (decide (tool_uses blocks = [])) as [Hu|Hu].
  - destruct (chat_no_tools env req w ctx Hne blocks x1 H1 Hu) as [Hr Ht].
    exists [EvCreate req1]. subst asked. rewrite Hu. split_and!; try done.
    intros _. eauto.
  - destruct (messages_create env (turn_followup req w ctx blocks x1) x1)
      as [r2 x2] eqn:H2.
    destruct (chat_with_tools env req w ctx Hne blocks x1 r2 x2) as [Hr Ht];
      [done|].
    eexists. split; [exact Ht|].
    rewrite !executions_app, !creations_app, executions_tool_traces,
      creations_tool_traces. simpl. rewrite app_nil_r.
    split_and!; [done|by rewrite length_fmap|done|].
    intros _. split; [done|]. intros resp Hresp. rewrite Hr in Hresp.
    destruct r2; [|done]. injection Hresp as <-. simpl.
    unfold calls_of. rewrite length_fmap. split; [done|].
    rewrite <- list_fmap_compose. done.
Qed.

Lemma tool_round_counts_witness :
  let w := fresh [Ok [order_tool_use; TextBlock "Let me check."; unknown_tool_use];
                  Ok [TextBlock "Your order 123 has shipped."]] no_snippets in
  ∃ evs, trace (chat order_request w).2 = evs
    ∧ executions evs = [("get_order_status", [("order_id", VStr "123")]);
                        ("unknown_tool", [])]
    ∧ List.length (creations evs) = 2%nat.
Proof.
  intros w.
  destruct (tool_round_counts scripted_env order_request w ""
              [order_tool_use; TextBlock "Let me check."; unknown_tool_use]
              (mkScript [Ok [TextBlock "Your order 123 has shipped."]] no_snippets))
    as (evs & Ht & Hex & _ & _ & Hc).
  - discriminate.
  - eexists. split; vm_compute; reflexivity.
  - exists evs. split; [exact Ht|]. split; [exact Hex|].
    destruct Hc as [-> _]; [discriminate|reflexivity].
Defined.

(** ** C4: a failing tool *)

Lemma unknown_tool_raises env (x : ExtState env) name arguments :
  registry_lookup (env:=env) name = None →
  tool_outcome env x name arguments = Raise (KeyError ("Unknown tool: " +:+ name)).
Proof. intros H. unfold tool_outcome, execute_tool. run. by rewrite H. Qed.

(** C4.  (1) [execute_tool] raises [KeyError] for a name that is not in the
    registry.  (2) Let the first completion of a turn return [blocks], and
    let the [i]-th [tool_use] block, with id [id], be one whose execution
    raises [exc].  Then every [tool_use] block of the response is still
    executed, in order; the follow-up completion is requested, its last
    message being the user message that carries the [tool_result] blocks, the
    [i]-th of which refers to [id] and holds the string form of the error
    dictionary; and the outcome of the turn is decided by the follow-up
    completion alone: when it returns, the turn returns a response whose
    [i]-th tool call records the error dictionary. *)
Theorem failing_tool_becomes_error_entry env :
  (∀ (x : ExtState env) name arguments,
     registry_lookup (env:=env) name = None →
     tool_outcome env x name arguments
     = Raise (KeyError ("Unknown tool: " +:+ name)))
  ∧ (∀ (req : ChatRequest) (w : World env) ctx blocks x1 i id name input exc,
       strip (message req) ≠ "" →
       first_completion_gives req w ctx (Ok blocks) x1 →
       tool_uses blocks !! i = Some (id, name, input) →
       tool_outcome env x1 name input = Raise exc →
       let followup := turn_followup req w ctx blocks x1 in
       (∃ evs, trace (chat req w).2 = trace w ++ evs
          ∧ executions evs
            = (λ u : string * string * pydict, (u.1.2, u.2)) <$> tool_uses blocks
          ∧ last (creations evs) = Some followup)
       ∧ last (messages followup)
         = Some (mkMessage "user" (CToolResults (results_of env x1 blocks)))
       ∧ results_of env x1 blocks !! i
         = Some (mkToolResultBlock id (py_str env (error_result env exc)))
       ∧ match messages_create env followup x1 with
         | (Ok second_response, _) =>
             ∃ resp, (chat req w).1 = Ok resp
                     ∧ tool_calls resp !! i
                       = Some (mkToolCall name input (error_result env exc))
         | (Raise e, _) => (chat req w).1 = Raise (surfaced env e)
         end).
Proof.
  split; [apply unknown_tool_raises|].
  intros req w ctx blocks x1 i id name input exc Hne H1 Hi Hexc followup.
  assert (Hu : tool_uses blocks ≠ []) by (intros E; by rewrite E in Hi).
  destruct (messages_create env followup x1) as [r2 x2] eqn:H2.
  destruct (chat_with_tools env req w ctx Hne blocks x1 r2 x2) as [Hr Ht];
    [done|].
  split_and!.
  - eexists. split; [exact Ht|].
    rewrite !executions_app, !creations_app, executions_tool_traces,
      creations_tool_traces. simpl. rewrite app_nil_r. done.
  - unfold followup, turn_followup, followup_request. simpl.
    by rewrite last_app.
  - unfold results_of, recorded_result. rewrite list_lookup_fmap, Hi. simpl.
    by rewrite Hexc.
  - destruct r2 as [b2|e]; [|done]. eexists. split; [exact Hr|]. simpl.
    unfold calls_of, recorded_result. rewrite list_lookup_fmap, Hi. simpl.
    by rewrite Hexc.
Qed.

Lemma failing_tool_becomes_error_entry_witness :
  let w := fresh [Ok [order_tool_use; unknown_tool_use];
                  Ok [TextBlock "I could not run unknown_tool."]] no_snippets in
  let err := VDict [("error", VStr "'Unknown tool: unknown_tool'")] in
  (∃ resp, (chat order_request w).1 = Ok resp
           ∧ tool_calls resp !! 1%nat = Some (mkToolCall "unknown_tool" [] err))
  ∧ List.length (executions (trace (chat order_request w).2)) = 2%nat.
Proof.
  intros w err.
  destruct (failing_tool_becomes_error_entry scripted_env) as [Hk H].
  destruct (H order_request w "" [order_tool_use; unknown_tool_use]
              (mkScript [Ok [TextBlock "I could not run unknown_tool."]] no_snippets)
              1%nat "toolu_02" "unknown_tool" [] (KeyError "Unknown tool: unknown_tool"))
    as ((evs & Ht & Hex & _) & _ & _ & Hr).
  - discriminate.
  - eexists. split; vm_compute; reflexivity.
  - reflexivity.
  - apply Hk. reflexivity.
  - split; [exact Hr|]. rewrite Ht. simpl. rewrite Hex. reflexivity.
Defined.

(** ** C6: a failing completion call *)

(** C6.  When the first completion call of a turn raises [e], or the first
    returns tool requests and the follow-up call raises [e], [chat] raises:
    an [APIStatusError] is reported as HTTP 500 with the detail
    ["Anthropic API error: ..."], any other exception leaves [chat] as it is.
    The history of the session then is the previous history followed by the
    user message, with no assistant reply; no other session has changed. *)
Theorem provider_failure_fails_turn env (req : ChatRequest) (w : World env) ctx e :
  strip (message req) ≠ "" →
  (∃ x1, first_completion_gives req w ctx (Raise e) x1)
  ∨ (∃ first x1 x2, second_completion_gives req w ctx first x1 (Raise e) x2) →
  (chat req w).1 = Raise (surfaced env e)
  ∧ (∀ msg, e = APIStatusError msg →
       surfaced env e = HTTPException 500 ("Anthropic API error: " +:+ msg))
  ∧ (class_APIStatusError e = false → surfaced env e = e)
  ∧ sessions (chat req w).2
    = <[session_id req := history_of (session_id req) w ++ [user_message req]]>
        (sessions w)
  ∧ history_of (session_id req) (chat req w).2
    = history_of (session_id req) w ++ [user_message req].
Proof.
  intros Hne H.
  assert (Hr : (chat req w).1 = Raise (surfaced env e)).
  { destruct H as [(x1 & H1)|(first & x1 & x2 & H2)].
    - by destruct (chat_first_raises env req w ctx Hne e x1 H1).
    - by destruct (chat_with_tools env req w ctx Hne first x1 _ x2 H2). }
  pose proof (chat_sessions env req w Hne) as Hs. rewrite Hr in Hs.
  split_and!; try done.
  - by intros msg ->.
  - unfold surfaced. by intros ->.
  - unfold history_of at 1. by rewrite Hs, lookup_insert_eq.
Qed.

Lemma provider_failure_fails_turn_witness :
  let w := fresh [Ok [order_tool_use]; Raise (APIStatusError "overloaded")]
             no_snippets in
  (chat order_request w).1
  = Raise (HTTPException 500 "Anthropic API error: overloaded")
  ∧ history_of "s1" (chat order_request w).2 = [user_message order_request].
Proof.
  intros w.
  destruct (provider_failure_fails_turn scripted_env order_request w ""
              (APIStatusError "overloaded")) as (H1 & _ & _ & _ & H5).
  - discriminate.
  - right. exists [order_tool_use].
    exists (mkScript [Raise (APIStatusError "overloaded")] no_snippets).
    exists (mkScript [] no_snippets).
    split; [|split]; [eexists; split; vm_compute; reflexivity|discriminate|].
    vm_compute. reflexivity.
  - split; [exact H1|]. etrans; [exact H5|reflexivity].
Defined.

(** ** C10: a final response without text *)

Lemma extract_no_text blocks :
  text_blocks blocks = [] → _extract_text_from_blocks blocks = "".
Proof. intros H. unfold _extract_text_from_blocks. by rewrite H. Qed.

(** C10.  Let [final] be the response the answer is taken from: the first
    response when it asks for no tool, the follow-up response otherwise.  If
    [final] has no text block, the extracted answer is the empty string, the
    turn returns it, and the history of the session is the previous history
    followed by the user message and an assistant message whose content is
    the empty string. *)
Theorem empty_answer_enters_history env (req : ChatRequest) (w : World env) ctx final :
  strip (message req) ≠ "" →
  text_blocks final = [] →
  (∃ x1, first_completion_gives req w ctx (Ok final) x1 ∧ tool_uses final = [])
  ∨ (∃ first x1 x2, second_completion_gives req w ctx first x1 (Ok final) x2) →
  _extract_text_from_blocks final = ""
  ∧ (∃ calls, (chat req w).1 = Ok (mkChatResponse "" calls))
  ∧ history_of (session_id req) (chat req w).2
    = history_of (session_id req) w ++ [user_message req; assistant_message ""].
Proof.
  intros Hne Hnt H. pose proof (extract_no_text final Hnt) as Hx.
  assert (Hr : ∃ calls, (chat req w).1 = Ok (mkChatResponse "" calls)).
  { destruct H as [(x1 & H1 & Hu)|(first & x1 & x2 & H2)].
    - destruct (chat_no_tools env req w ctx Hne final x1 H1 Hu) as [-> _].
      rewrite Hx. eauto.
    - destruct (chat_with_tools env req w ctx Hne first x1 _ x2 H2) as [-> _].
      rewrite Hx. eauto. }
  split_and!; [done..|].
  destruct Hr as [calls Hr].
  pose proof (chat_sessions env req w Hne) as Hs. rewrite Hr in Hs.
  unfold history_of at 1. by rewrite Hs, lookup_insert_eq.
Qed.

Lemma empty_answer_enters_history_witness :
  let w := fresh [Ok [order_tool_use]; Ok [OtherBlock]] no_snippets in
  (∃ calls, (chat order_request w).1 = Ok (mkChatResponse "" calls))
  ∧ history_of "s1" (chat order_request w).2
    = [user_message order_request; assistant_message ""].
Proof.
  intros w.
  destruct (empty_answer_enters_history scripted_env order_request w "" [OtherBlock])
    as (_ & H2 & H3).
  - discriminate.
  - reflexivity.
  - right. exists [order_tool_use].
    exists (mkScript [Ok [OtherBlock]] no_snippets).
    exists (mkScript [] no_snippets).
    split; [|split]; [eexists; split; vm_compute; reflexivity|discriminate|].
    vm_compute. reflexivity.
  - split; [exact H2|]. etrans; [exact H3|reflexivity].
Defined.

(** ** C9: what the store can hold *)

Lemma chat_preserves_store_ok env (req : ChatRequest) (w : World env) :
  store_ok w → store_ok (chat req w).2.
Proof.
  intros Hok.
  destruct (decide (strip (message req) = "")) as [Hb|Hne].
  { by rewrite (chat_blank env req w Hb). }
  intros sid history. rewrite (chat_sessions env req w Hne).
  rewrite lookup_insert. case_decide as Hsid; [|apply Hok].
  intros [= <-]. apply Forall_app. split.
  - unfold history_of. destruct (sessions w !! session_id req) as [h|] eqn:E; simpl.
    + by apply (Hok (session_id req)).
    + constructor.
  - assert (plain_message (user_message req)) by (split; simpl; eauto).
    assert (∀ text, plain_message (assistant_message text))
      by (split; simpl; eauto).
    destruct (chat req w).1 as [resp|e]; repeat (apply Forall_cons; split);
      auto using Forall_nil_2.
Qed.

(** C9.  A store with no session satisfies the invariant "every stored
    message has role [user] or [assistant] and a plain-text content"; one
    [chat] call preserves it whatever the call returns or raises; so it holds
    after any sequence of requests.  The [tool_use] and [tool_result] blocks
    travel in the last two messages of the follow-up request, which is built
    for one completion call and never stored. *)
Theorem stored_messages_are_plain_text env :
  (∀ x : ExtState env, store_ok (bare x))
  ∧ (∀ req (w : World env), store_ok w → store_ok (chat req w).2)
  ∧ (∀ reqs (w : World env), store_ok w → store_ok (serve reqs w))
  ∧ (∀ reqs (x : ExtState env) sid history m,
       sessions (serve reqs (bare x)) !! sid = Some history → m ∈ history →
       (role m = "user" ∨ role m = "assistant") ∧ ∃ s, content m = CText s)
  ∧ (∀ sp msgs first results,
       messages (followup_request sp msgs first results)
       = msgs ++ [mkMessage "assistant" (CBlocks first);
                  mkMessage "user" (CToolResults results)]).
Proof.
  assert (Hbare : ∀ x : ExtState env, store_ok (bare x)).
  { intros x sid history H. simpl in H. by rewrite lookup_empty in H. }
  assert (Hserve : ∀ reqs (w : World env), store_ok w → store_ok (serve reqs w)).
  { induction reqs as [|req reqs IH]; intros w Hok; simpl; [done|].
    apply IH. by apply chat_preserves_store_ok. }
  split_and!; [done|apply chat_preserves_store_ok|done| |done].
  intros reqs x sid history m Hs Hm.
  pose proof (Hserve reqs (bare x) (Hbare x) sid history Hs) as Hall.
  rewrite Forall_forall in Hall. by apply Hall.
Qed.

Lemma stored_messages_are_plain_text_witness :
  let w := fresh [Ok [order_tool_use]; Ok [TextBlock "Your order 123 has shipped."];
                  Raise (APIStatusError "overloaded")] no_snippets in
  store_ok w
  ∧ store_ok (serve [order_request; mkChatRequest "s2" " "; order_request] w).
Proof.
  intros w.
  destruct (stored_messages_are_plain_text scripted_env) as (H1 & _ & H3 & _).
  assert (Hw : store_ok w) by apply H1.
  split; [exact Hw|]. apply H3. exact Hw.
Defined.

(** ** C2: the keys of a tool call are checked before the handler runs *)

Lemma assoc_in_keys {A} k (d : list (string * A)) :
  if in_list k d.*1 then ∃ v, assoc k d = Some v else assoc k d = None.
Proof.
  unfold in_list. induction d as [|[k' v] d IH]; csimpl.
  - done.
  - destruct (decide (k' = k)) as [->|Hk].
    + rewrite bool_decide_eq_true_2 by left. eauto.
    + destruct (bool_decide (k ∈ d.*1)) eqn:E.
      * rewrite bool_decide_eq_true_2; [done|]. right.
        by eapply bool_decide_eq_true_1.
      * rewrite bool_decide_eq_false_2; [done|].
        eapply bool_decide_eq_false_1 in E. rewrite elem_of_cons.
        by intros [?|?].
Qed.

Lemma unexpected_none ps (keys : list string) :
  match filter (λ k, k ∉ ps) keys with
  | [] => forallb (λ k, in_list k ps) keys = true
  | _ :: _ => forallb (λ k, in_list k ps) keys = false
  end.
Proof.
  unfold in_list. induction keys as [|k keys IH]; [done|].
  rewrite filter_cons. simpl. destruct (decide (k ∉ ps)) as [Hk|Hk].
  - by rewrite bool_decide_eq_false_2.
  - rewrite bool_decide_eq_true_2 by (by apply dec_stable). done.
Qed.

(** [call_kwargs] either enters the body with the values found under the
    parameter names, or raises [TypeError] and leaves the world alone; which
    of the two is decided by the keys. *)
Lemma call_kwargs_cases env (func : Callable env) arguments (w : World env) :
  if forallb (λ p, in_list p (dict_keys arguments)) (fun_params func)
     && forallb (λ k, in_list k (fun_params func)) (dict_keys arguments)
  then match func with
       | Fun1 _ _ f => ∃ a, call_kwargs func arguments w = f a w
       | Fun2 _ _ _ f => ∃ a b, call_kwargs func arguments w = f a b w
       end
  else ∃ msg, call_kwargs func arguments w = (Raise (TypeError msg), w).
Proof.
  unfold call_kwargs.
  pose proof (unexpected_none (fun_params func) (dict_keys arguments)) as Hu.
  destruct (filter _ (dict_keys arguments)) as [|k ks]; rewrite Hu.
  2:{ rewrite andb_false_r. unfold unexpected_keyword. run. eauto. }
  rewrite andb_true_r.
  destruct func as [fname p1 f|fname p1 p2 f]; simpl; unfold dict_get, dict_keys.
  - pose proof (assoc_in_keys p1 arguments) as H1.
    destruct (in_list p1 arguments.*1); simpl.
    + destruct H1 as [a ->]. eauto.
    + rewrite H1. unfold missing_arguments. run. eauto.
  - pose proof (assoc_in_keys p1 arguments) as H1.
    pose proof (assoc_in_keys p2 arguments) as H2.
    destruct (in_list p1 arguments.*1), (in_list p2 arguments.*1); simpl.
    + destruct H1 as [a ->], H2 as [b ->]. eauto.
    + destruct H1 as [a ->]. rewrite H2. unfold missing_arguments. run. eauto.
    + rewrite H1. unfold missing_arguments. run. eauto.
    + rewrite H1. unfold missing_arguments. run. eauto.
Qed.

Lemma execute_registered env name func arguments (w : World env) :
  registry_lookup name = Some func →
  execute_tool name arguments w =
    call_kwargs func arguments
      (mkWorld (sessions w) (ext w) (trace w ++ [EvExecute name arguments])).
Proof. intros H. unfold execute_tool. run. by rewrite H. Qed.

Lemma declared_schema_is_signature env spec :
  spec ∈ get_tool_specs →
  ∃ func, registry_lookup (env:=env) (spec_name spec) = Some func
          ∧ fun_name func = spec_name spec
          ∧ fun_params func = required (input_schema spec)
          ∧ fun_params func = (properties (input_schema spec)).*1.
Proof.
  unfold get_tool_specs. rewrite !elem_of_cons, elem_of_nil.
  intros [->|[->|[]]]; eexists; (split; [reflexivity|done]).
Qed.

(** C2.  (1) Each declared tool is registered, and the parameter names of
    its handler are the [required] list and the property names of its
    declared input schema.  (2) When the keys of the arguments do not match
    the schema of a declared tool (a required key is missing or a key is not
    declared), [execute_tool] raises [TypeError] without entering the
    handler; the loop of [_run_llm_with_tools] does not raise, and records
    the error dictionary as the result of the call and as the content of its
    [tool_result] block.  (3) When the keys match, the handler is entered. *)
Theorem arguments_checked_before_handler env :
  (∀ spec, spec ∈ get_tool_specs →
     ∃ func, registry_lookup (env:=env) (spec_name spec) = Some func
             ∧ fun_name func = spec_name spec
             ∧ fun_params func = required (input_schema spec)
             ∧ fun_params func = (properties (input_schema spec)).*1)
  ∧ (∀ spec (x : ExtState env) arguments,
       spec ∈ get_tool_specs →
       keys_match (input_schema spec) arguments = false →
       ∃ msg,
         tool_outcome env x (spec_name spec) arguments = Raise (TypeError msg)
         ∧ handlers_entered (tool_trace env x (spec_name spec) arguments) = []
         ∧ ∀ id (w : World env),
             ext w = x →
             (run_tool_blocks [ToolUseBlock id (spec_name spec) arguments] [] [] w).1
             = Ok ([mkToolCall (spec_name spec) arguments
                      (VDict [("error", VStr msg)])],
                   [mkToolResultBlock id
                      (py_str env (VDict [("error", VStr msg)]))]))
  ∧ (∀ spec (x : ExtState env) arguments,
       spec ∈ get_tool_specs →
       keys_match (input_schema spec) arguments = true →
       handlers_entered (tool_trace env x (spec_name spec) arguments)
       = [spec_name spec]).
Proof.
  split_and!; [apply declared_schema_is_signature|..].
  - intros spec x arguments Hspec Hk.
    destruct (declared_schema_is_signature env spec Hspec)
      as (func & Hreg & _ & Hreq & Hprop).
    pose proof (call_kwargs_cases env func arguments
      (mkWorld ∅ x [EvExecute (spec_name spec) arguments])) as Hc.
    unfold keys_match in Hk. rewrite <- Hreq, <- Hprop in Hk. rewrite Hk in Hc.
    destruct Hc as [msg Hc].
    pose proof (execute_registered env _ func arguments (bare x) Hreg) as He.
    simpl in He. rewrite Hc in He.
    assert (Ho : tool_outcome env x (spec_name spec) arguments
                 = Raise (TypeError msg)).
    { unfold tool_outcome. by rewrite He. }
    exists msg. split_and!; [done| |].
    + unfold tool_trace. by rewrite He.
    + intros id w <-. rewrite run_tool_blocks_spec. simpl.
      unfold calls_of, results_of, recorded_result. csimpl. by rewrite Ho.
  - intros spec x arguments Hspec Hk.
    destruct (declared_schema_is_signature env spec Hspec)
      as (func & Hreg & Hname & Hreq & Hprop).
    pose proof (call_kwargs_cases env func arguments
      (mkWorld ∅ x [EvExecute (spec_name spec) arguments])) as Hc.
    unfold keys_match in Hk. rewrite <- Hreq, <- Hprop in Hk. rewrite Hk in Hc.
    pose proof (execute_registered env _ func arguments (bare x) Hreg) as He.
    simpl in He. unfold tool_trace. rewrite He. clear He Hk Hreq Hprop Hname.
    revert Hspec Hreg Hc. unfold get_tool_specs.
    rewrite !elem_of_cons, elem_of_nil.
    intros [->|[->|[]]] [= <-]; simpl.
    + intros [a ->]. unfold get_order_status. by run.
    + intros (a & b & ->). unfold send_email. run.
      destruct (py_len b); simpl; [|done]. by destruct (py_slice_to 60 b).
Qed.

Lemma arguments_checked_before_handler_witness :
  let spec := mkToolSpec "send_email"
     "Send an email message to a recipient (simulated)."
     (mkSchema
        [("recipient_email", ("string", "Destination email address."));
         ("message", ("string", "Plain text content to send."))]
        ["recipient_email"; "message"]) in
  let x := mkScript [] no_snippets in
  (∃ msg, tool_outcome scripted_env x "send_email" [("message", VStr "hi")]
          = Raise (TypeError msg)
          ∧ handlers_entered
              (tool_trace scripted_env x "send_email" [("message", VStr "hi")]) = [])
  ∧ handlers_entered
      (tool_trace scripted_env x "send_email"
         [("message", VStr "hi"); ("recipient_email", VStr "a@b.example")])
    = ["send_email"].
Proof.
  intros spec x.
  destruct (arguments_checked_before_handler scripted_env) as (_ & H2 & H3).
  assert (Hspec : spec ∈ get_tool_specs) by (right; left).
  split.
  - destruct (H2 spec x [("message", VStr "hi")] Hspec) as (msg & Ho & Hh & _);
      [reflexivity|].
    exists msg. split; [exact Ho|exact Hh].
  - apply (H3 spec x [("message", VStr "hi"); ("recipient_email", VStr "a@b.example")] Hspec).
    reflexivity.
Defined.

(** The values bound to the parameters are not compared with the declared
    types: an integer [order_id] reaches the handler. *)
Example integer_order_id_accepted :
  tool_outcome scripted_env (mkScript [] no_snippets) "get_order_status"
    [("order_id", VInt 123)]
  = Ok (VDict [("order_id", VInt 123); ("status", VStr "shipped");
               ("estimated_delivery", VStr "2025-07-01");
               ("carrier", VStr "Acme Logistics")]).
Proof. reflexivity. Qed.

(** ** The order-status scenario, end to end

    Session "s1" asks "Where is my order 123?"; retrieval returns no snippet;
    the first completion asks for [get_order_status]; the follow-up
    completion answers in text. *)
Example order_status_scenario :
  let w := fresh [Ok [order_tool_use]; Ok [TextBlock "Your order 123 has shipped."]]
             no_snippets in
  (chat order_request w).1
  = Ok (mkChatResponse "Your order 123 has shipped."
          [mkToolCall "get_order_status" [("order_id", VStr "123")]
             (VDict [("order_id", VStr "123"); ("status", VStr "shipped");
                     ("estimated_delivery", VStr "2025-07-01");
                     ("carrier", VStr "Acme Logistics")])])
  ∧ role <$> history_of "s1" (chat order_request w).2 = ["user"; "assistant"]
  ∧ system <$> creations (trace (chat order_request w).2)
    = [build_system_prompt ""; build_system_prompt ""]
  ∧ tools <$> creations (trace (chat order_request w).2)
    = [Some get_tool_specs; None].
Proof. vm_compute. done. Qed.

(** * Further properties of the code *)

(** ** Trimming *)

Lemma lstrip_empty_iff s : lstrip s = "" ↔ all_space s = true.
Proof.
  induction s as [|c s IH]; simpl; [done|].
  destruct (is_space c); simpl; [done|]. split; discriminate.
Qed.

Lemma rstrip_empty_iff s : rstrip s = "" ↔ all_space s = true.
Proof.
  induction s as [|c s IH]; simpl; [done|].
  destruct (rstrip s) eqn:E.
  - destruct (is_space c); simpl; [by rewrite <- IH|]. split; discriminate.
  - rewrite andb_comm. destruct (all_space s); simpl.
    + by destruct IH as [_ IH]; specialize (IH eq_refl).
    + split; discriminate.
Qed.

Lemma all_space_lstrip s : all_space (lstrip s) = all_space s.
Proof.
  induction s as [|c s IH]; simpl; [done|].
  destruct (is_space c) eqn:E; simpl; by rewrite ?E.
Qed.

Lemma strip_empty_iff s : strip s = "" ↔ all_space s = true.
Proof. unfold strip. by rewrite rstrip_empty_iff, all_space_lstrip. Qed.

Lemma rstrip_idem s : rstrip (rstrip s) = rstrip s.
Proof.
  induction s as [|c s IH]; simpl; [done|].
  destruct (rstrip s) as [|c' r] eqn:E.
  - destruct (is_space c) eqn:Ec; simpl; [done|]. by rewrite Ec.
  - simpl in *. by rewrite IH.
Qed.

Lemma lstrip_starts_clean s : starts_clean (lstrip s) = true.
Proof.
  induction s as [|c s IH]; simpl; [done|].
  destruct (is_space c) eqn:E; simpl; [done|]. by rewrite E.
Qed.

Lemma lstrip_clean s : starts_clean s = true → lstrip s = s.
Proof. destruct s as [|c s]; simpl; [done|]. by destruct (is_space c). Qed.

Lemma rstrip_starts_clean s : starts_clean s = true → starts_clean (rstrip s) = true.
Proof.
  destruct s as [|c s]; simpl; [done|]. intros Hc.
  destruct (rstrip s); simpl; [|done].
  destruct (is_space c) eqn:E; simpl; [done|]. by rewrite E.
Qed.

Lemma strip_idem s : strip (strip s) = strip s.
Proof.
  unfold strip.
  rewrite (lstrip_clean (rstrip (lstrip s))).
  - apply rstrip_idem.
  - apply rstrip_starts_clean, lstrip_starts_clean.
Qed.

Lemma length_lstrip s : (String.length (lstrip s) ≤ String.length s)%nat.
Proof. induction s as [|c s IH]; simpl; [done|]. destruct (is_space c); simpl; lia. Qed.

Lemma length_rstrip s : (String.length (rstrip s) ≤ String.length s)%nat.
Proof.
  induction s as [|c s IH]; simpl; [done|].
  destruct (rstrip s); [destruct (is_space c)|]; simpl in *; lia.
Qed.

Lemma length_strip s : (String.length (strip s) ≤ String.length s)%nat.
Proof.
  unfold strip. etrans; [apply length_rstrip|apply length_lstrip].
Qed.

(** *** What occurs in what *)

Lemma append_cons x (a b : string) : String x a +:+ b = String x (a +:+ b).
Proof. reflexivity. Qed.

Lemma append_empty_l (a : string) : "" +:+ a = a.
Proof. reflexivity. Qed.

Lemma append_assoc (a b c : string) : (a +:+ b) +:+ c = a +:+ b +:+ c.
Proof.
  induction a as [|x a IH]; [done|]. rewrite !append_cons. by f_equal.
Qed.

Lemma append_empty_r (a : string) : a +:+ "" = a.
Proof.
  induction a as [|x a IH]; [done|]. rewrite append_cons. by f_equal.
Qed.

Lemma occurs_in_refl s : occurs_in s s.
Proof. exists "", "". by rewrite append_empty_l, append_empty_r. Qed.

Lemma occurs_in_trans a b c : occurs_in a b → occurs_in b c → occurs_in a c.
Proof.
  intros (p1 & q1 & ->) (p2 & q2 & ->).
  exists (p2 +:+ p1), (q1 +:+ q2). by rewrite !append_assoc.
Qed.

Lemma occurs_in_cons c a s : occurs_in a s → occurs_in a (String c s).
Proof. intros (p & q & ->). by exists (String c p), q. Qed.

Lemma occurs_in_lstrip s : occurs_in (lstrip s) s.
Proof.
  induction s as [|c s IH]; simpl; [apply occurs_in_refl|].
  destruct (is_space c); [by apply occurs_in_cons|apply occurs_in_refl].
Qed.

Lemma rstrip_prefix s : ∃ q, s = rstrip s +:+ q.
Proof.
  induction s as [|c s [q IH]]; simpl; [by exists ""|].
  destruct (rstrip s) as [|c' r] eqn:E.
  - destruct (is_space c).
    + by exists (String c s).
    + exists s. done.
  - exists q. rewrite append_cons. by rewrite <- IH.
Qed.

Lemma occurs_in_rstrip s : occurs_in (rstrip s) s.
Proof. destruct (rstrip_prefix s) as [q Hq]. by exists "", q. Qed.

Lemma occurs_in_strip s : occurs_in (strip s) s.
Proof.
  unfold strip. eapply occurs_in_trans; [apply occurs_in_rstrip|apply occurs_in_lstrip].
Qed.

Lemma substring_prefix m s : ∃ q, s = String.substring 0 m s +:+ q.
Proof.
  revert s. induction m as [|m IH]; intros s.
  - exists s. by destruct s.
  - destruct s as [|c s]; simpl; [by exists ""|].
    destruct (IH s) as [q Hq]. exists q. rewrite append_cons. by rewrite <- Hq.
Qed.

Lemma occurs_in_substring n m s : occurs_in (String.substring n m s) s.
Proof.
  revert s. induction n as [|n IH]; intros s.
  - destruct (substring_prefix m s) as [q Hq]. by exists "", q.
  - destruct s as [|c s]; simpl.
    + destruct m; apply occurs_in_refl.
    + apply occurs_in_cons, IH.
Qed.

Lemma length_substring n m s : (String.length (String.substring n m s) ≤ m)%nat.
Proof.
  revert m s. induction n as [|n IH]; intros m s.
  - revert s. induction m as [|m IHm]; intros s; destruct s; simpl; try lia.
    specialize (IHm s). lia.
  - destruct s as [|c s]; simpl; [destruct m; simpl; lia|apply IH].
Qed.

Lemma substring_all m s :
  (String.length s ≤ m)%nat → String.substring 0 m s = s.
Proof.
  revert s. induction m as [|m IH]; intros s Hs.
  - destruct s; simpl in *; [done|lia].
  - destruct s as [|c s]; simpl in *; [done|]. rewrite IH; [done|lia].
Qed.

(** ** app/load_data.py: [chunk_text] *)

Section chunking.
Context (text : string) (chunk_size overlap : Z).

Lemma chunk_loop_more_fuel fuel fuel' start chunks r :
  chunk_loop fuel text chunk_size overlap start chunks = Some r →
  (fuel ≤ fuel')%nat →
  chunk_loop fuel' text chunk_size overlap start chunks = Some r.
Proof.
  revert fuel' start chunks. induction fuel as [|fuel IH]; intros fuel' start chunks; [done|].
  intros H Hle. destruct fuel' as [|fuel']; [lia|]. simpl in *.
  destruct (start <? str_len text); [|done]. apply IH; [done|lia].
Qed.

Lemma left_from_end start :
  0 < chunk_size - overlap → str_len text ≤ start → left_from text chunk_size overlap start = 0%nat.
Proof.
  intros Hs Hle. unfold left_from.
  assert ((str_len text - start + (chunk_size - overlap) - 1)
          / (chunk_size - overlap) ≤ 0); [|lia].
  apply Z.lt_succ_r, Z.div_lt_upper_bound; lia.
Qed.

Lemma left_from_step start :
  0 < chunk_size - overlap → start < str_len text →
  left_from text chunk_size overlap start = S (left_from text chunk_size overlap (start + (chunk_size - overlap))).
Proof.
  intros Hs Hlt. unfold left_from.
  replace (str_len text - start + (chunk_size - overlap) - 1)
    with ((str_len text - (start + (chunk_size - overlap))
           + (chunk_size - overlap) - 1) + 1 * (chunk_size - overlap)) by lia.
  rewrite Z.div_add by lia.
  assert (0 ≤ (str_len text - (start + (chunk_size - overlap))
               + (chunk_size - overlap) - 1) / (chunk_size - overlap)).
  { apply Z.div_pos; lia. }
  lia.
Qed.

Lemma chunk_loop_windows fuel start chunks :
  0 < chunk_size - overlap →
  (left_from text chunk_size overlap start < fuel)%nat →
  chunk_loop fuel text chunk_size overlap start chunks
  = Some (chunks ++ windows_from text chunk_size overlap (left_from text chunk_size overlap start) start).
Proof.
  intros Hs. revert start chunks.
  induction fuel as [|fuel IH]; intros start chunks Hf; [lia|]. simpl.
  destruct (Z.ltb_spec start (str_len text)) as [Hlt|Hge].
  - rewrite (left_from_step start) in * by done.
    rewrite IH by lia. simpl. by rewrite <- app_assoc.
  - rewrite left_from_end by done. simpl. by rewrite app_nil_r.
Qed.

Lemma windows_from_seq n start :
  windows_from text chunk_size overlap n start
  = (λ k : nat, window text chunk_size (start + Z.of_nat k * (chunk_size - overlap)))
      <$> seq 0 n.
Proof.
  revert start. induction n as [|n IH]; intros start; [done|].
  simpl. rewrite IH. f_equal; [f_equal; lia|].
  rewrite <- (fmap_S_seq 0 n), <- list_fmap_compose.
  apply list_fmap_ext. intros _ k _. simpl. f_equal. lia.
Qed.

Lemma left_from_bound start :
  0 < chunk_size - overlap → 0 ≤ start →
  (left_from text chunk_size overlap start ≤ String.length text)%nat.
Proof.
  intros Hs H0. unfold left_from, str_len.
  assert ((Z.of_nat (String.length text) - start + (chunk_size - overlap) - 1)
          / (chunk_size - overlap) ≤ Z.of_nat (String.length text)); [|lia].
  apply Z.lt_succ_r, Z.div_lt_upper_bound; nia.
Qed.

Lemma chunk_loop_stuck fuel start chunks :
  chunk_size - overlap ≤ 0 → start < str_len text →
  chunk_loop fuel text chunk_size overlap start chunks = None.
Proof.
  intros Hs. revert start chunks.
  induction fuel as [|fuel IH]; intros start chunks Hlt; [done|]. simpl.
  destruct (Z.ltb_spec start (str_len text)); [|lia]. apply IH. lia.
Qed.
End chunking.

Lemma chunk_text_fuel_windows text chunk_size overlap fuel :
  0 < chunk_size - overlap →
  (window_count text chunk_size overlap < fuel)%nat →
  chunk_text_fuel fuel text chunk_size overlap
  = Some (expected_chunks text chunk_size overlap).
Proof.
  intros Hs Hf. unfold chunk_text_fuel, expected_chunks.
  assert (Hw : left_from text chunk_size overlap 0
               = window_count text chunk_size overlap).
  { unfold left_from, window_count. by rewrite Z.sub_0_r. }
  rewrite chunk_loop_windows by (by rewrite ?Hw).
  rewrite Hw, windows_from_seq. simpl. do 2 f_equal.
Qed.

Lemma window_count_bound text chunk_size overlap :
  0 < chunk_size - overlap →
  (window_count text chunk_size overlap ≤ String.length text)%nat.
Proof.
  intros Hs. pose proof (left_from_bound text chunk_size overlap 0 Hs) as H.
  unfold left_from in H. rewrite Z.sub_0_r in H. apply H. lia.
Qed.

(** With a positive step ([overlap < chunk_size]) the call returns, and it
    returns the non-empty trimmed windows of [chunk_size] characters that
    begin at 0, step, 2 * step, ... before the end of the text, in that
    order; there are at most as many chunks as such windows.  Any run of the
    loop that is given more iterations than there are windows ends with the
    same list. *)
Theorem chunk_text_windows text chunk_size overlap :
  0 < chunk_size - overlap →
  chunk_text text chunk_size overlap = Some (expected_chunks text chunk_size overlap)
  ∧ (List.length (expected_chunks text chunk_size overlap)
     ≤ window_count text chunk_size overlap)%nat
  ∧ ∀ fuel, (window_count text chunk_size overlap < fuel)%nat →
      chunk_text_fuel fuel text chunk_size overlap
      = Some (expected_chunks text chunk_size overlap).
Proof.
  intros Hs. split_and!.
  - apply chunk_text_fuel_windows; [done|].
    pose proof (window_count_bound text chunk_size overlap Hs). lia.
  - unfold expected_chunks. etrans; [apply length_filter|].
    by rewrite length_fmap, length_seq.
  - intros fuel Hf. by apply chunk_text_fuel_windows.
Qed.

Lemma chunk_text_windows_witness :
  chunk_text "hello world, this is text" 10 3
  = Some ["hello worl"; "orld, this"; "his is tex"; "text"]
  ∧ chunk_text "ab      cd" 4 1 = Some ["ab"; "cd"; "d"].
Proof.
  split.
  - destruct (chunk_text_windows "hello world, this is text" 10 3) as [H _];
      [lia|]. etrans; [exact H|]. vm_compute. reflexivity.
  - destruct (chunk_text_windows "ab      cd" 4 1) as [H _]; [lia|].
    etrans; [exact H|]. vm_compute. reflexivity.
Defined.

(** When [overlap] is at least [chunk_size] the start index never moves
    forward: on a non-empty text no run of the loop ends, however many
    iterations it is given, and [chunk_text] does not return.  On the empty
    text the loop body is never entered and the result is the empty list,
    whatever the two sizes are. *)
Theorem chunk_text_diverges text chunk_size overlap :
  (chunk_size ≤ overlap → text ≠ "" →
     chunk_text text chunk_size overlap = None
     ∧ ∀ fuel, chunk_text_fuel fuel text chunk_size overlap = None)
  ∧ chunk_text "" chunk_size overlap = Some [].
Proof.
  split; [|done]. intros Hs Hne.
  assert (H : ∀ fuel, chunk_text_fuel fuel text chunk_size overlap = None).
  { intros fuel. unfold chunk_text_fuel. rewrite chunk_loop_stuck; [done|lia|].
    unfold str_len. destruct text; [done|simpl; lia]. }
  split; [apply H|done].
Qed.

Lemma chunk_text_diverges_witness :
  chunk_text "abc" 2 2 = None ∧ chunk_text_fuel 1000 "abc" 100 100 = None.
Proof.
  split.
  - apply (chunk_text_diverges "abc" 2 2); [lia|discriminate].
  - apply (chunk_text_diverges "abc" 100 100); [lia|discriminate].
Defined.

(** The number of iterations given to the loop in [chunk_text] loses no run
    that ends. *)
Lemma chunk_text_adequate text chunk_size overlap fuel r :
  chunk_text_fuel fuel text chunk_size overlap = Some r →
  chunk_text text chunk_size overlap = Some r.
Proof.
  intros H. destruct (Z.lt_ge_cases 0 (chunk_size - overlap)) as [Hs|Hs].
  - destruct (chunk_text_windows text chunk_size overlap Hs) as (-> & _ & Hf).
    destruct (decide (window_count text chunk_size overlap < fuel)%nat) as [Hlt|Hge].
    + by rewrite Hf in H.
    + unfold chunk_text_fuel in H.
      destruct (chunk_loop fuel text chunk_size overlap 0 []) as [chunks|] eqn:E;
        [|done].
      pose proof (chunk_loop_more_fuel text chunk_size overlap fuel
                    (S (Nat.max fuel (window_count text chunk_size overlap)))
                    0 [] chunks E) as E'.
      pose proof (Hf (S (Nat.max fuel (window_count text chunk_size overlap))))
        as Hf'.
      unfold chunk_text_fuel in Hf'. rewrite E' in Hf' by lia.
      rewrite <- Hf' by lia. exact H.
  - destruct (decide (text = "")) as [->|Hne].
    + destruct fuel; [done|]. exact H.
    + destruct (chunk_text_diverges text chunk_size overlap) as [Hd _].
      destruct Hd as [_ Hd]; [lia|done|]. by rewrite Hd in H.
Qed.

Lemma length_py_slice text start chunk_size :
  0 ≤ chunk_size →
  Z.of_nat (String.length (py_slice text start (start + chunk_size))) ≤ chunk_size.
Proof.
  intros Hc. unfold py_slice.
  pose proof (length_substring
    (Z.to_nat (slice_index (str_len text) start))
    (Z.to_nat (slice_index (str_len text) (start + chunk_size)
               - slice_index (str_len text) start)) text) as Hl.
  assert (slice_index (str_len text) (start + chunk_size)
          - slice_index (str_len text) start ≤ chunk_size); [|lia].
  unfold slice_index, str_len.
  destruct (Z.ltb_spec (start + chunk_size) 0), (Z.ltb_spec start 0); lia.
Qed.

Lemma window_good text chunk_size start :
  good_chunk text chunk_size (window text chunk_size start).
Proof.
  unfold window. split_and!.
  - apply strip_idem.
  - eapply occurs_in_trans; [apply occurs_in_strip|apply occurs_in_substring].
  - intros Hc. pose proof (length_py_slice text start chunk_size Hc).
    pose proof (length_strip (py_slice text start (start + chunk_size))). lia.
Qed.

Lemma chunk_loop_good text chunk_size overlap fuel start chunks r :
  chunk_loop fuel text chunk_size overlap start chunks = Some r →
  Forall (good_chunk text chunk_size) chunks →
  Forall (good_chunk text chunk_size) r.
Proof.
  revert start chunks. induction fuel as [|fuel IH]; intros start chunks; [done|].
  simpl. destruct (start <? str_len text).
  - intros H Hall. eapply IH; [exact H|].
    apply Forall_app. split; [done|].
    apply Forall_cons. split; [apply window_good|constructor].
  - by intros [= <-].
Qed.

(** Every chunk returned by [chunk_text], for any sizes, is non-empty, has no
    whitespace at either end, occurs in the text as a contiguous piece, and
    is at most [chunk_size] characters long when [chunk_size] is not
    negative. *)
Theorem chunk_text_chunks text chunk_size overlap r :
  chunk_text text chunk_size overlap = Some r →
  Forall (λ c, c ≠ "" ∧ strip c = c ∧ occurs_in c text
               ∧ (0 ≤ chunk_size → Z.of_nat (String.length c) ≤ chunk_size)) r.
Proof.
  unfold chunk_text, chunk_text_fuel. intros H.
  destruct (chunk_loop _ text chunk_size overlap 0 []) as [chunks|] eqn:E; [|done].
  injection H as <-.
  pose proof (chunk_loop_good _ _ _ _ _ _ _ E (Forall_nil_2 _)) as Hall.
  rewrite Forall_forall in *. intros c [Hc Hin]%list_elem_of_filter.
  split; [by destruct c|]. by apply Hall.
Qed.

Lemma chunk_text_chunks_witness :
  Forall (λ c, c ≠ "" ∧ strip c = c ∧ occurs_in c "ab      cd"
               ∧ (0 ≤ 4 → Z.of_nat (String.length c) ≤ 4)) ["ab"; "cd"; "d"].
Proof. apply (chunk_text_chunks "ab      cd" 4 1). reflexivity. Defined.

Lemma py_slice_whole text hi :
  str_len text ≤ hi → py_slice text 0 hi = text.
Proof.
  intros H. unfold py_slice, slice_index, str_len in *. simpl.
  destruct (Z.ltb_spec hi 0); [lia|].
  rewrite (Z.min_l 0), (Z.min_r hi) by lia.
  rewrite Z.sub_0_r, Nat2Z.id. by apply substring_all.
Qed.

(** A non-empty text that is no longer than the step
    [chunk_size - overlap], for an [overlap] that is not negative, gives
    exactly one chunk, the trimmed text, or no chunk at all when the text is
    only whitespace. *)
Theorem chunk_text_short_text text chunk_size overlap :
  0 ≤ overlap → 0 < str_len text → str_len text ≤ chunk_size - overlap →
  chunk_text text chunk_size overlap
  = Some (if all_space text then [] else [strip text]).
Proof.
  intros Ho Hpos Hle.
  destruct (chunk_text_windows text chunk_size overlap) as [-> _]; [lia|].
  unfold expected_chunks.
  assert (window_count text chunk_size overlap = 1%nat) as ->.
  { unfold window_count.
    rewrite <- (Z.div_unique (str_len text + (chunk_size - overlap) - 1)
                  (chunk_size - overlap) 1 (str_len text - 1)); [done| |]; lia. }
  simpl. unfold window. rewrite Z.add_0_l, py_slice_whole by lia.
  f_equal. rewrite filter_cons, filter_nil.
  destruct (all_space text) eqn:E.
  - apply strip_empty_iff in E. rewrite E. by rewrite decide_False.
  - destruct (strip text) eqn:Es; [|by rewrite decide_True].
    apply strip_empty_iff in Es. congruence.
Qed.

Lemma chunk_text_short_text_witness :
  chunk_text "  Returns are free.  " 500 100 = Some ["Returns are free."]
  ∧ chunk_text "   " 500 100 = Some [].
Proof.
  split.
  - apply (chunk_text_short_text "  Returns are free.  " 500 100);
      unfold str_len; simpl; lia.
  - apply (chunk_text_short_text "   " 500 100); unfold str_len; simpl; lia.
Defined.

(** ** app/load_data.py: [main] *)

Ltac lrun :=
  unfold mbind, mret, L_bind, L_ret, lcall, lraise, lreturns, ltry; simpl.

Lemma default_chunking_returns text : ∃ chunks, chunk_text text 500 100 = Some chunks.
Proof.
  destruct (chunk_text_windows text 500 100) as [-> _]; [lia|]. eauto.
Qed.

Lemma lcall_bind {lenv A B} ev f (k : A → L lenv B) (w : LoaderWorld lenv) :
  (x ← lcall ev f; k x) w =
    match f (lstate w) with
    | (Ok a, s) => k a (mkLoaderWorld s (ltrace w ++ [ev]))
    | (Raise e, s) => Some (Raise e, mkLoaderWorld s (ltrace w ++ [ev]))
    end.
Proof. unfold mbind, L_bind, lcall. by destruct (f (lstate w)) as [[]]. Qed.

Lemma read_bind {lenv B} (k : string → L lenv B) (w : LoaderWorld lenv) :
  (x ← read_source_text; k x) w =
    if source_exists lenv (lstate w)
    then (x ← lcall LvRead (source_read_text lenv); k x) w
    else Some (Raise (OtherException "FileNotFoundError"
                        ("Knowledge base file not found: "
                         +:+ source_resolved lenv (lstate w))), w).
Proof.
  unfold mbind, L_bind, read_source_text.
  by destruct (source_exists lenv (lstate w)).
Qed.

Lemma lreturns_bind {lenv A B} (o : option A) (k : A → L lenv B)
    (w : LoaderWorld lenv) :
  (x ← lreturns o; k x) w = match o with Some a => k a w | None => None end.
Proof. unfold mbind, L_bind, lreturns. by destruct o. Qed.

Lemma ltry_bind {lenv B} ev f (k : L lenv B) (w : LoaderWorld lenv) :
  (ltry (lcall ev f) (mret tt);; k) w =
    k (mkLoaderWorld (f (lstate w)).2 (ltrace w ++ [ev])).
Proof.
  unfold mbind, mret, L_bind, L_ret, ltry, lcall.
  by destruct (f (lstate w)) as [[[]|] ?].
Qed.

(** one step through the script *)
Ltac lstep :=
  first
  [ rewrite lcall_bind
  | rewrite read_bind
  | rewrite lreturns_bind
  | rewrite ltry_bind
  | match goal with
    | |- context [chunk_text ?t 500 100] =>
        let H := fresh "Hchunks" in
        destruct (default_chunking_returns t) as [? H]; rewrite H
    end
  | match goal with
    | |- context [match ?call with _ => _ end] =>
        destruct call as [[?|?] ?] eqn:?
    end
  | match goal with
    | |- context [if source_exists ?l ?s then _ else _] =>
        destruct (source_exists l s) eqn:?
    end ];
  cbn [lstate ltrace fst snd].

Lemma doc_ids_NoDup n : NoDup (doc_ids n).
Proof.
  unfold doc_ids. apply NoDup_fmap_2; [|apply NoDup_seq].
  intros i j H. apply (inj (String.app "doc_")) in H. by apply (inj pretty) in H.
Qed.

(** When the knowledge base file does not exist, the script stops with
    [FileNotFoundError] right after the embedding model has been loaded: the
    Chroma client is not opened, and the existing collection is neither
    deleted nor re-created. *)
Theorem loader_missing_file lenv (w : LoaderWorld lenv) embedder s1 :
  sentence_transformer lenv LOADER_MODEL_NAME (lstate w) = (Ok embedder, s1) →
  source_exists lenv s1 = false →
  loader_main w
  = Some (Raise (OtherException "FileNotFoundError"
                   ("Knowledge base file not found: " +:+ source_resolved lenv s1)),
          mkLoaderWorld s1 (ltrace w ++ [LvModel LOADER_MODEL_NAME])).
Proof.
  intros Hm He. unfold loader_main, read_source_text. lrun.
  rewrite Hm. simpl. by rewrite He.
Qed.

Lemma loader_missing_file_witness :
  ∃ e w', loader_main (loader_start None (Ok tt)) = Some (Raise e, w')
          ∧ filter (λ ev, store_change ev = true) (ltrace w') = [].
Proof.
  eexists _, _. split.
  - apply (loader_missing_file scripted_loader (loader_start None (Ok tt)) tt
             (mkLoaderScript None (Ok tt))); reflexivity.
  - reflexivity.
Defined.

(** The script always comes to an end, given that its external calls do:
    the chunking it runs has a positive step.  When it ends without an
    exception,
    its external calls were, in this order: load the model, read the file,
    open the client, delete the collection, create it, embed the chunks, add
    them; the documents added are the chunks of the file's text for a chunk
    size of 500 and an overlap of 100, their ids [doc_0], [doc_1], ... are
    pairwise distinct, and there is one id and one metadata entry per
    document. *)
Theorem loader_success_trace lenv (w : LoaderWorld lenv) :
  (∃ r w', loader_main w = Some (r, w'))
  ∧ ∀ w', loader_main w = Some (Ok tt, w') →
      ∃ full_text chunks ids metadatas,
        (∃ s s', source_read_text lenv s = (Ok full_text, s'))
        ∧ chunk_text full_text 500 100 = Some chunks
        ∧ ltrace w' = ltrace w ++
            [LvModel LOADER_MODEL_NAME; LvRead; LvClient LOADER_CHROMA_PATH;
             LvDelete LOADER_COLLECTION_NAME;
             LvCreate LOADER_COLLECTION_NAME [("hnsw:space", "cosine")];
             LvEncode chunks; LvAdd ids chunks metadatas]
        ∧ NoDup ids
        ∧ List.length ids = List.length chunks
        ∧ List.length metadatas = List.length chunks
        ∧ ids = doc_ids (List.length chunks)
        ∧ metadatas = chunk_metadatas (List.length chunks).
Proof.
  split.
  - unfold loader_main. repeat lstep; eauto.
    unfold lcall. cbn [lstate ltrace].
    match goal with |- context [collection_add ?l ?c ?i ?d ?e ?m ?s] =>
      destruct (collection_add l c i d e m s) end. eauto.
  - intros w'. unfold loader_main. repeat lstep; try done.
    unfold lcall. cbn [lstate ltrace].
    match goal with |- context [collection_add ?l ?c ?i ?d ?e ?m ?s] =>
      destruct (collection_add l c i d e m s) end.
    intros [= -> <-].
    match goal with
    | Hr : source_read_text lenv _ = (Ok ?t, _),
      Hc : chunk_text ?t 500 100 = Some ?c |- _ =>
        exists t, c, (doc_ids (List.length c)), (chunk_metadatas (List.length c))
    end.
    split_and!; try done.
    + eauto.
    + cbn [ltrace]. by rewrite <- !app_assoc.
    + apply doc_ids_NoDup.
    + unfold doc_ids. by rewrite length_fmap, length_seq.
    + unfold chunk_metadatas. by rewrite length_fmap, length_seq.
Qed.

Lemma loader_success_trace_witness :
  ∃ w', loader_main (loader_start (Some "Returns are free.") (Ok tt))
        = Some (Ok tt, w')
        ∧ ltrace w' = [LvModel LOADER_MODEL_NAME; LvRead; LvClient LOADER_CHROMA_PATH;
                       LvDelete LOADER_COLLECTION_NAME;
                       LvCreate LOADER_COLLECTION_NAME [("hnsw:space", "cosine")];
                       LvEncode ["Returns are free."];
                       LvAdd ["doc_0"] ["Returns are free."] [[("source", "chunk_0")]]].
Proof.
  destruct (loader_success_trace scripted_loader
              (loader_start (Some "Returns are free.") (Ok tt))) as [_ H].
  destruct (H (@mkLoaderWorld scripted_loader
                 (mkLoaderScript (Some "Returns are free.") (Ok tt))
                 [LvModel LOADER_MODEL_NAME; LvRead; LvClient LOADER_CHROMA_PATH;
                  LvDelete LOADER_COLLECTION_NAME;
                  LvCreate LOADER_COLLECTION_NAME [("hnsw:space", "cosine")];
                  LvEncode ["Returns are free."];
                  LvAdd ["doc_0"] ["Returns are free."] [[("source", "chunk_0")]]]))
    as (full_text & chunks & ids & metadatas & _ & _ & Ht & _).
  - vm_compute. reflexivity.
  - eexists. split; [vm_compute; reflexivity|]. reflexivity.
Defined.

(** An exception of [delete_collection] is ignored: whatever that call
    returns or raises, [create_collection] is the next external call. *)
Theorem loader_delete_failure_ignored lenv (w : LoaderWorld lenv)
    embedder s1 full_text s2 client s3 rd s4 :
  sentence_transformer lenv LOADER_MODEL_NAME (lstate w) = (Ok embedder, s1) →
  source_exists lenv s1 = true →
  source_read_text lenv s1 = (Ok full_text, s2) →
  persistent_client lenv LOADER_CHROMA_PATH s2 = (Ok client, s3) →
  delete_collection lenv client LOADER_COLLECTION_NAME s3 = (rd, s4) →
  ∃ r w' rest,
    loader_main w = Some (r, w')
    ∧ ltrace w' = ltrace w ++
        [LvModel LOADER_MODEL_NAME; LvRead; LvClient LOADER_CHROMA_PATH;
         LvDelete LOADER_COLLECTION_NAME;
         LvCreate LOADER_COLLECTION_NAME [("hnsw:space", "cosine")]] ++ rest
    ∧ (∀ e s5, create_collection lenv client LOADER_COLLECTION_NAME
                 [("hnsw:space", "cosine")] s4 = (Raise e, s5) → r = Raise e).
Proof.
  intros Hm He Hr Hc Hd. unfold loader_main.
  rewrite lcall_bind, Hm. rewrite read_bind. cbn [lstate ltrace].
  rewrite He, lcall_bind. cbn [lstate ltrace]. rewrite Hr.
  destruct (default_chunking_returns full_text) as [chunks Hchunks].
  rewrite lreturns_bind, Hchunks, lcall_bind. cbn [lstate ltrace].
  rewrite Hc, ltry_bind. cbn [lstate ltrace]. rewrite Hd. cbn [snd].
  rewrite lcall_bind. cbn [lstate ltrace].
  destruct (create_collection lenv client _ _ s4) as [[collection|e] s5].
  - rewrite lcall_bind. cbn [lstate ltrace].
    destruct (encode_chunks lenv embedder chunks s5) as [[embeddings|e] s6].
    + unfold lcall. cbn [lstate ltrace].
      destruct (collection_add lenv collection _ chunks embeddings _ s6) as [r s7].
      eexists _, _, [_; _]. split_and!; [done| |done].
      cbn [ltrace]. by rewrite <- !app_assoc.
    + eexists _, _, [_]. split_and!; [done| |done].
      cbn [ltrace]. by rewrite <- !app_assoc.
  - eexists _, _, []. split_and!; [done| |by intros ?? [= <- _]].
    cbn [ltrace]. by rewrite <- !app_assoc.
Qed.

Lemma loader_delete_failure_ignored_witness :
  ∃ w', loader_main (loader_start (Some "Returns are free.") no_collection)
        = Some (Ok tt, w')
        ∧ ltrace w' = [LvModel LOADER_MODEL_NAME; LvRead; LvClient LOADER_CHROMA_PATH;
                       LvDelete LOADER_COLLECTION_NAME;
                       LvCreate LOADER_COLLECTION_NAME [("hnsw:space", "cosine")];
                       LvEncode ["Returns are free."];
                       LvAdd ["doc_0"] ["Returns are free."] [[("source", "chunk_0")]]].
Proof.
  destruct (loader_delete_failure_ignored scripted_loader
              (loader_start (Some "Returns are free.") no_collection)
              tt (mkLoaderScript (Some "Returns are free.") no_collection)
              "Returns are free." (mkLoaderScript (Some "Returns are free.") no_collection)
              tt (mkLoaderScript (Some "Returns are free.") no_collection)
              no_collection (mkLoaderScript (Some "Returns are free.") no_collection))
    as (r & w' & rest & H1 & H2 & _); try reflexivity.
  eexists. split; vm_compute; reflexivity.
Defined.

(** ** app/logging_config.py *)

(** [configure_logging] configures the root logger at most once.  On a
    root logger without handler and for a level name the module knows, it
    adds exactly one handler, sets the root level to the upper-case name and
    the levels of [chromadb] and [sentence_transformers] to WARNING; after
    that, a further call changes nothing, whatever level it is given.  For a
    level name the module rejects, the exception of [setLevel] leaves the
    function before a handler is added, and the state is unchanged. *)
Theorem configure_logging_once lg level (st : Logging) :
  root_handlers st = [] →
  match level_error lg (str_upper lg level) with
  | None =>
      ∃ st1, configure_logging lg level st = (Ok tt, st1)
             ∧ List.length (root_handlers st1) = 1%nat
             ∧ root_level st1 = str_upper lg level
             ∧ logger_levels st1 !! "chromadb" = Some "WARNING"
             ∧ logger_levels st1 !! "sentence_transformers" = Some "WARNING"
             ∧ ∀ level', configure_logging lg level' st1 = (Ok tt, st1)
  | Some exc => configure_logging lg level st = (Raise exc, st)
  end.
Proof.
  intros Hh. unfold configure_logging. rewrite Hh.
  destruct (level_error lg (str_upper lg level)) as [exc|]; [done|].
  eexists. split; [done|]. simpl. split_and!; try done.
  - by rewrite lookup_insert_ne, lookup_insert_eq.
  - by rewrite lookup_insert_eq.
Qed.

Lemma configure_logging_once_witness :
  ∃ st1, configure_logging scripted_logging "info" logging_start = (Ok tt, st1)
         ∧ root_level st1 = "INFO"
         ∧ configure_logging scripted_logging "debug" st1 = (Ok tt, st1).
Proof.
  pose proof (configure_logging_once scripted_logging "info" logging_start eq_refl)
    as H.
  change (level_error scripted_logging (str_upper scripted_logging "info"))
    with (@None PyExc) in H.
  destruct H as (st1 & H1 & _ & H3 & _ & _ & H6).
  exists st1. split; [exact H1|]. split; [exact H3|apply H6].
Defined.

(** ** app/sessions.py *)

(** [get_history] returns the stored history, the empty list for a session
    it has not seen, and registers that session; a second read returns the
    same list and changes nothing; no read touches another session. *)
Theorem get_history_registers_once env sid (w : World env) :
  (get_history sid w).1 = Ok (history_of sid w)
  ∧ sessions (get_history sid w).2 !! sid = Some (history_of sid w)
  ∧ get_history sid (get_history sid w).2 = get_history sid w
  ∧ (is_Some (sessions w !! sid) → (get_history sid w).2 = w)
  ∧ ∀ sid', sid' ≠ sid →
      sessions (get_history sid w).2 !! sid' = sessions w !! sid'.
Proof.
  rewrite get_history_spec. simpl. split_and!.
  - done.
  - by rewrite lookup_insert_eq.
  - rewrite get_history_spec. rewrite history_of_insert. simpl.
    by rewrite insert_insert_eq.
  - intros [h Hh]. unfold history_of. rewrite Hh. simpl.
    rewrite insert_id by done. by destruct w.
  - intros sid' Hne. by rewrite lookup_insert_ne.
Qed.

Lemma get_history_registers_once_witness :
  let w := (append_user "s1" "hi" (fresh [] no_snippets)).2 in
  (get_history "s1" w).2 = w
  ∧ sessions (get_history "s2" w).2 !! "s1" = sessions w !! "s1"
  ∧ sessions (get_history "s2" w).2 !! "s2" = Some [].
Proof.
  intros w.
  destruct (get_history_registers_once scripted_env "s1" w) as (_ & _ & _ & H4 & _).
  destruct (get_history_registers_once scripted_env "s2" w) as (_ & H2 & _ & _ & H5).
  split; [apply H4; by eexists|]. split; [apply H5; discriminate|exact H2].
Defined.

(** Appending to one session never fails and leaves every other session,
    the outside state and the trace as they were; the history of the session
    grows by exactly one message per append.  Appends to two different
    sessions can be made in either order with the same result. *)
Theorem appends_are_isolated env sid (w : World env) :
  (∀ ops sid', sid' ≠ sid →
     (do_appends sid ops w).1 = Ok tt
     ∧ sessions (do_appends sid ops w).2 !! sid' = sessions w !! sid'
     ∧ ext (do_appends sid ops w).2 = ext w
     ∧ trace (do_appends sid ops w).2 = trace w
     ∧ List.length (history_of sid (do_appends sid ops w).2)
       = (List.length (history_of sid w) + List.length ops)%nat)
  ∧ (∀ sid' a b, sid' ≠ sid →
       (append_user sid a;; append_assistant sid' b) w
       = (append_assistant sid' b;; append_user sid a) w).
Proof.
  split.
  - intros ops sid' Hne. revert w.
    induction ops as [|[text|text] ops IH]; intros w.
    + simpl. split_and!; first [done|lia].
    + simpl. unfold mbind, M_bind. rewrite append_user_spec.
      destruct (IH (mkWorld
        (<[sid := history_of sid w ++ [mkMessage "user" (CText text)]]> (sessions w))
        (ext w) (trace w))) as (H1 & H2 & H3 & H4 & H5).
      split_and!; try done.
      * rewrite H2. simpl. by rewrite lookup_insert_ne.
      * rewrite H5, history_of_insert, length_app. simpl. lia.
    + simpl. unfold mbind, M_bind. rewrite append_assistant_spec.
      destruct (IH (mkWorld
        (<[sid := history_of sid w ++ [mkMessage "assistant" (CText text)]]> (sessions w))
        (ext w) (trace w))) as (H1 & H2 & H3 & H4 & H5).
      split_and!; try done.
      * rewrite H2. simpl. by rewrite lookup_insert_ne.
      * rewrite H5, history_of_insert, length_app. simpl. lia.
  - intros sid' a b Hne. unfold mbind, M_bind.
    rewrite append_user_spec, append_assistant_spec.
    rewrite append_assistant_spec, append_user_spec. simpl.
    unfold history_of. simpl. rewrite !lookup_insert_ne by done.
    by rewrite insert_insert_ne.
Qed.

Lemma appends_are_isolated_witness :
  let w := fresh [] no_snippets in
  sessions (do_appends "s1" [AppendUser "hi"; AppendAssistant "hello"] w).2 !! "s2"
  = None
  ∧ (append_user "s1" "a";; append_assistant "s2" "b") w
    = (append_assistant "s2" "b";; append_user "s1" "a") w.
Proof.
  intros w. destruct (appends_are_isolated scripted_env "s1" w) as [H1 H2].
  split.
  - destruct (H1 [AppendUser "hi"; AppendAssistant "hello"] "s2") as (_ & H & _);
      [discriminate|]. etrans; [exact H|reflexivity].
  - apply H2. discriminate.
Defined.

(** ** app/rag/tools.py *)

(** [execute_tool] changes neither the sessions nor the outside state: it
    only extends the trace, by the call itself and by at most one handler
    entry. *)
Theorem tools_touch_only_the_trace env name arguments (w : World env) :
  sessions (execute_tool name arguments w).2 = sessions w
  ∧ ext (execute_tool name arguments w).2 = ext w
  ∧ ∃ evs, trace (execute_tool name arguments w).2
           = trace w ++ EvExecute name arguments :: evs
           ∧ (evs = [] ∨ evs = [EvHandler name]).
Proof.
  rewrite execute_tool_frame. simpl. split_and!; [done..|].
  destruct (tool_trace_head env (ext w) name arguments) as (evs & -> & _ & _ & H).
  eauto.
Qed.

Lemma call_kwargs_bound env (func : Callable env) arguments (w : World env) :
  forallb (λ p, in_list p (dict_keys arguments)) (fun_params func)
  && forallb (λ k, in_list k (fun_params func)) (dict_keys arguments) = true →
  match func with
  | Fun1 _ p1 f =>
      ∃ a, dict_get p1 arguments = Some a ∧ call_kwargs func arguments w = f a w
  | Fun2 _ p1 p2 f =>
      ∃ a b, dict_get p1 arguments = Some a ∧ dict_get p2 arguments = Some b
             ∧ call_kwargs func arguments w = f a b w
  end.
Proof.
  intros [Hp Hk]%andb_true_iff. unfold call_kwargs.
  pose proof (unexpected_none (fun_params func) (dict_keys arguments)) as Hu.
  destruct (filter _ (dict_keys arguments)) as [|k ks]; [|congruence].
  destruct func as [fname p1 f|fname p1 p2 f]; simpl in *;
    unfold dict_get, dict_keys in *.
  - pose proof (assoc_in_keys p1 arguments) as H1.
    destruct (in_list p1 arguments.*1); [|done].
    destruct H1 as [a ->]. eauto.
  - pose proof (assoc_in_keys p1 arguments) as H1.
    pose proof (assoc_in_keys p2 arguments) as H2.
    destruct (in_list p1 arguments.*1), (in_list p2 arguments.*1); try done.
    destruct H1 as [a ->], H2 as [b ->]. eauto 6.
Qed.

(** A call of [get_order_status] whose keys match its schema never fails,
    whatever value is passed as [order_id] (a string or not, a known order
    or not): the value is returned unchanged, the status is always
    [shipped], and the estimated delivery is the current date. *)
Theorem every_order_is_shipped env (x : ExtState env) arguments :
  keys_match (mkSchema [("order_id", ("string", "Opaque identifier of the order."))]
                ["order_id"]) arguments = true →
  ∃ order_id,
    dict_get "order_id" arguments = Some order_id
    ∧ tool_outcome env x "get_order_status" arguments
      = Ok (VDict [("order_id", order_id);
                   ("status", VStr "shipped");
                   ("estimated_delivery", VStr (date_today env x));
                   ("carrier", VStr "Acme Logistics")]).
Proof.
  intros Hk.
  destruct (call_kwargs_bound env
    (Fun1 "get_order_status" "order_id" get_order_status) arguments
    (mkWorld ∅ x [EvExecute "get_order_status" arguments]) Hk) as (a & Ha & Hc).
  exists a. split; [done|].
  pose proof (execute_registered env "get_order_status" _ arguments (bare x)
                eq_refl) as He.
  simpl in He. unfold tool_outcome. rewrite He, Hc. done.
Qed.

Lemma every_order_is_shipped_witness :
  ∃ order_id,
    dict_get "order_id" [("order_id", VInt 0)] = Some order_id
    ∧ tool_outcome scripted_env (mkScript [] no_snippets) "get_order_status"
        [("order_id", VInt 0)]
      = Ok (VDict [("order_id", order_id); ("status", VStr "shipped");
                   ("estimated_delivery", VStr "2025-07-01");
                   ("carrier", VStr "Acme Logistics")]).
Proof.
  apply (every_order_is_shipped scripted_env (mkScript [] no_snippets)
           [("order_id", VInt 0)]).
  reflexivity.
Defined.





(** ** app/rag/retriever.py *)

(** The hits pair up the documents, distances and metadata position by
    position, and there are as many hits as the shortest of the three lists
    has entries: surplus entries of the longer lists are dropped. *)
Theorem zip_hits_pairs {F Md} (documents : list string) (distances : list F)
    (metadatas : list Md) :
  List.length (zip_hits documents distances metadatas)
  = (List.length documents `min` (List.length distances `min` List.length metadatas))%nat
  ∧ ∀ i hit, zip_hits documents distances metadatas !! i = Some hit →
      documents !! i = Some (hit_text hit)
      ∧ distances !! i = Some (hit_score hit)
      ∧ metadatas !! i = Some (hit_metadata hit).
Proof.
  revert distances metadatas.
  induction documents as [|doc documents IH]; intros [|dist distances] [|meta metadatas];
    try (split; [done|]; by intros []).
  destruct (IH distances metadatas) as [Hl Hi]. split.
  - simpl. by rewrite Hl.
  - intros [|i] hit; simpl.
    + by intros [= <-].
    + apply Hi.
Qed.

Lemma zip_hits_pairs_witness :
  List.length (zip_hits ["a"; "b"; "c"] [1; 2] [tt; tt; tt]) = 2%nat
  ∧ ["a"; "b"; "c"] !! 1%nat = Some "b" ∧ [1; 2] !! 1%nat = Some 2.
Proof.
  destruct (zip_hits_pairs ["a"; "b"; "c"] [1; 2] [tt; tt; tt]) as [Hl H].
  destruct (H 1%nat (mkHit "b" 2 tt) eq_refl) as (H1 & H2 & _).
  split; [exact Hl|]. split; [exact H1|exact H2].
Defined.

(** What [retrieve] makes of the answer of the collection: only the first
    row of each of the three fields is used.  A field that is absent counts
    as one empty row, so an answer without documents gives no hit and an
    empty context; a field that is present but has no row at all raises
    [IndexError]. *)
Theorem retrieve_rows env query k (w : World env) c x1 v x2 res x3 :
  get_collection env (ext w) = (Ok c, x1) →
  encode env query x1 = (Ok v, x2) →
  collection_query env c v k x2 = (Ok res, x3) →
  (∀ docs dists metas rest1 rest2 rest3,
     documents res = Some (docs :: rest1) →
     distances res = Some (dists :: rest2) →
     metadatas res = Some (metas :: rest3) →
     (retrieve query k w).1 = Ok (zip_hits docs dists metas))
  ∧ (documents res = None →
     distances res ≠ Some [] → metadatas res ≠ Some [] →
     (retrieve query k w).1 = Ok [] ∧ (build_context query k w).1 = Ok "")
  ∧ (documents res = Some [] ∨ distances res = Some [] ∨ metadatas res = Some [] →
     (retrieve query k w).1 = Raise (IndexError "list index out of range")).
Proof.
  intros Hc He Hq.
  assert (Hr : retrieve query k w =
    (documents ← first_row (documents res);
     distances ← first_row (distances res);
     metadatas ← first_row (metadatas res);
     mret (zip_hits documents distances metadatas),
     mkWorld (sessions w) x3 (trace w))).
  { unfold retrieve, embed_text. run. rewrite Hc. simpl. rewrite He. simpl.
    rewrite Hq. simpl.
    destruct (first_row (documents res)); simpl; [|done].
    destruct (first_row (distances res)); simpl; [|done].
    by destruct (first_row (metadatas res)). }
  split_and!.
  - intros docs dists metas r1 r2 r3 H1 H2 H3. rewrite Hr, H1, H2, H3. done.
  - intros H1 H2 H3.
    assert ((retrieve query k w).1 = Ok []) as Hnil.
    { rewrite Hr, H1. simpl. unfold mbind, Result_bind. simpl.
      destruct (distances res) as [[|? ?]|]; [done| |];
        (destruct (metadatas res) as [[|? ?]|]; [done| |]); done. }
    split; [done|].
    unfold build_context, mbind, M_bind.
    destruct (retrieve query k w) as [r w']. simpl in Hnil. by rewrite Hnil.
  - rewrite Hr. unfold mbind, Result_bind.
    destruct (documents res) as [[|? ?]|], (distances res) as [[|? ?]|],
      (metadatas res) as [[|? ?]|]; simpl; intros [|[|]]; done.
Qed.

Lemma retrieve_rows_witness :
  (build_context "q" 3
     (fresh [] (Ok (mkQueryResult None (Some [[1]]) (Some [[tt]]))))).1 = Ok ""
  ∧ (retrieve (env:=scripted_env) "q" 3
       (fresh [] (Ok (mkQueryResult (Some []) (Some [[1]]) (Some [[tt]]))))).1
    = Raise (IndexError "list index out of range").
Proof.
  split.
  - destruct (retrieve_rows scripted_env "q" 3
      (fresh [] (Ok (mkQueryResult None (Some [[1]]) (Some [[tt]]))))
      tt _ [] _ _ _ eq_refl eq_refl eq_refl) as (_ & H & _).
    apply H; [reflexivity|discriminate|discriminate].
  - destruct (retrieve_rows scripted_env "q" 3
      (fresh [] (Ok (mkQueryResult (Some []) (Some [[1]]) (Some [[tt]]))))
      tt _ [] _ _ _ eq_refl eq_refl eq_refl) as (_ & _ & H).
    apply H. left. reflexivity.
Defined.

Lemma format_hits_lookup env n (hits : list (Hit (Float env) (Metadata env))) i hit :
  hits !! i = Some hit →
  format_hits n hits !! i = Some (format_hit (n + i) hit).
Proof.
  revert n i. induction hits as [|h hits IH]; intros n [|i]; simpl; try done.
  - intros [= ->]. by rewrite Nat.add_0_r.
  - intros H. rewrite (IH (S n) i H). do 2 f_equal. lia.
Qed.

Lemma length_format_hits env n (hits : list (Hit (Float env) (Metadata env))) :
  List.length (format_hits n hits) = List.length hits.
Proof. revert n. induction hits as [|h hits IH]; intros n; simpl; by rewrite ?IH. Qed.

Lemma join_cons sep part parts :
  join sep (part :: parts)
  = match parts with
    | [] => part
    | _ :: _ => part +:+ sep +:+ join sep parts
    end.
Proof. by destruct parts. Qed.

Lemma occurs_in_join sep part parts :
  part ∈ parts → occurs_in part (join sep parts).
Proof.
  induction parts as [|p parts IH]; [by intros ?%elem_of_nil|].
  rewrite join_cons. intros [->|Hin]%elem_of_cons.
  - destruct parts; [apply occurs_in_refl|].
    exists "", (sep +:+ join sep (s :: parts)). by rewrite append_empty_l.
  - destruct parts as [|p' parts]; [by apply elem_of_nil in Hin|].
    destruct (IH Hin) as (a & b & ->).
    exists (p +:+ sep +:+ a), b. by rewrite !append_assoc.
Qed.

(** The context block lists the hits in the order retrieval returned them,
    separated by a blank line, each as a header line
    [[Document i | score=...]] numbered from 1 and followed by the text of
    the hit.  With at least one hit the block is not empty, so the system
    prompt carries the block and not the sentinel, and the text of every hit
    occurs in the block and in the system prompt. *)
Theorem build_context_format env query k (w w' : World env) hits :
  retrieve query k w = (Ok hits, w') →
  ∃ parts,
    build_context query k w = (Ok (join (nl +:+ nl) parts), w')
    ∧ List.length parts = List.length hits
    ∧ (∀ i hit, hits !! i = Some hit →
         parts !! i
         = Some ("[Document " +:+ pretty (S i) +:+ " | score="
                 +:+ format_4f env (hit_score hit) +:+ "]" +:+ nl +:+ hit_text hit))
    ∧ (hits ≠ [] →
         join (nl +:+ nl) parts ≠ ""
         ∧ build_system_prompt (join (nl +:+ nl) parts)
           = prompt_head +:+ join (nl +:+ nl) parts +:+ prompt_tail)
    ∧ (∀ hit, hit ∈ hits →
         occurs_in (hit_text hit) (join (nl +:+ nl) parts)
         ∧ occurs_in (hit_text hit) (build_system_prompt (join (nl +:+ nl) parts))).
Proof.
  intros Hr. exists (format_hits 1 hits).
  assert (Hne : hits ≠ [] → join (nl +:+ nl) (format_hits 1 hits) ≠ "").
  { destruct hits as [|h hits]; [done|]. intros _. simpl format_hits.
    rewrite join_cons. by destruct (format_hits 2 hits). }
  assert (Hp : ∀ block, block ≠ "" →
            build_system_prompt block = prompt_head +:+ block +:+ prompt_tail).
  { intros block Hb. unfold build_system_prompt. by destruct block. }
  split_and!.
  - unfold build_context, mbind, M_bind. by rewrite Hr.
  - apply length_format_hits.
  - intros i hit Hi. by rewrite (format_hits_lookup env 1 hits i hit Hi).
  - intros Hh. split; [by apply Hne|]. by apply Hp, Hne.
  - intros hit Hin.
    assert (occurs_in (hit_text hit) (join (nl +:+ nl) (format_hits 1 hits))) as Ho.
    { apply list_elem_of_lookup in Hin as [i Hi].
      eapply occurs_in_trans; [|apply occurs_in_join, list_elem_of_lookup; exists i;
                                  by apply format_hits_lookup].
      unfold format_hit. eexists _, "". rewrite append_empty_r.
      by rewrite <- !append_assoc. }
    split; [done|]. eapply occurs_in_trans; [exact Ho|].
    rewrite Hp.
    + by exists prompt_head, prompt_tail.
    + apply Hne. intros ->. by apply elem_of_nil in Hin.
Qed.

Lemma build_context_format_witness :
  let w := fresh [] (Ok (mkQueryResult (Some [["Returns are free."; "We ship daily."]])
                           (Some [[2500; 4100]]) (Some [[tt; tt]]))) in
  (build_context "returns?" 3 w).1
  = Ok ("[Document 1 | score=2500]" +:+ nl +:+ "Returns are free." +:+ nl +:+ nl
        +:+ "[Document 2 | score=4100]" +:+ nl +:+ "We ship daily.").
Proof.
  intros w.
  destruct (build_context_format scripted_env "returns?" 3 w w
              [mkHit "Returns are free." 2500 tt; mkHit "We ship daily." 4100 tt])
    as (parts & Hb & _); [reflexivity|].
  reflexivity.
Defined.

(** ** app/rag/prompt.py *)

Lemma length_append (a b : string) :
  String.length (a +:+ b) = (String.length a + String.length b)%nat.
Proof. induction a as [|c a IH]; [done|]. rewrite append_cons. simpl. by rewrite IH. Qed.

Lemma append_inj_r (a b t : string) : a +:+ t = b +:+ t → a = b.
Proof.
  revert b. induction a as [|c a IH]; intros [|c' b] H.
  - done.
  - apply (f_equal String.length) in H.
    rewrite append_empty_l, append_cons in H. simpl in H.
    rewrite length_append in H. lia.
  - apply (f_equal String.length) in H.
    rewrite append_empty_l, append_cons in H. simpl in H.
    rewrite length_append in H. lia.
  - rewrite !append_cons in H. injection H as -> H. f_equal. by apply IH.
Qed.

(** The system prompt determines the context block it was built from, with
    one exception: a block that is exactly the sentinel text gives the same
    prompt as the empty block, so the model cannot tell the two apart. *)
Theorem prompt_determines_block :
  (∀ b1 b2, b1 ≠ "" → b2 ≠ "" →
     build_system_prompt b1 = build_system_prompt b2 → b1 = b2)
  ∧ (∀ b, build_system_prompt b = build_system_prompt ""
          ↔ b = "" ∨ b = NO_CONTEXT_RETRIEVED).
Proof.
  assert (Hinj : ∀ a b, prompt_head +:+ a +:+ prompt_tail
                        = prompt_head +:+ b +:+ prompt_tail → a = b).
  { intros a b H. apply (inj (String.app prompt_head)) in H.
    by apply append_inj_r in H. }
  split.
  - intros b1 b2 H1 H2. unfold build_system_prompt.
    destruct b1, b2; try done. apply Hinj.
  - intros b. split.
    + unfold build_system_prompt. destruct b as [|c b]; [by left|].
      intros H%Hinj. by right.
    + by intros [->| ->].
Qed.

Lemma prompt_determines_block_witness :
  build_system_prompt "NO CONTEXT RETRIEVED" = build_system_prompt ""
  ∧ build_system_prompt "Returns are free." ≠ build_system_prompt "We ship daily.".
Proof.
  destruct prompt_determines_block as [H1 H2]. split.
  - apply H2. right. reflexivity.
  - intros H. apply H1 in H; discriminate.
Defined.

(** ** app/main.py *)

(** [chat] rejects exactly the messages made of whitespace only (the empty
    message among them).  Any other message is appended to the history of
    its session as it was sent, surrounding whitespace included, whatever
    happens later in the turn. *)
Theorem chat_stores_message_verbatim env (req : ChatRequest) (w : World env) :
  (all_space (message req) = true →
     chat req w = (Raise (HTTPException 400 "Message cannot be empty."), w))
  ∧ (all_space (message req) = false →
     history_of (session_id req) (chat req w).2
       !! List.length (history_of (session_id req) w)
     = Some (mkMessage "user" (CText (message req)))).
Proof.
  split.
  - intros H. apply chat_blank. by apply strip_empty_iff.
  - intros H.
    assert (Hne : strip (message req) ≠ "").
    { intros Hs%strip_empty_iff. congruence. }
    pose proof (chat_sessions env req w Hne) as Hs.
    assert (history_of (session_id req) (chat req w).2
            = history_of (session_id req) w
              ++ user_message req ::
                 match (chat req w).1 with
                 | Ok resp => [assistant_message (answer resp)]
                 | Raise _ => []
                 end) as ->.
    { set (h := history_of (session_id req) w) in *.
      unfold history_of. by rewrite Hs, lookup_insert_eq. }
    by rewrite lookup_app_r, Nat.sub_diag.
Qed.

Lemma chat_stores_message_verbatim_witness :
  let w := fresh [Ok [TextBlock "Hello."]] no_snippets in
  chat (mkChatRequest "s1" nl) w
  = (Raise (HTTPException 400 "Message cannot be empty."), w)
  ∧ history_of "s1" (chat (mkChatRequest "s1" "  hi ") w).2 !! 0%nat
    = Some (mkMessage "user" (CText "  hi ")).
Proof.
  intros w. split.
  - apply (chat_stores_message_verbatim scripted_env (mkChatRequest "s1" nl) w).
    reflexivity.
  - apply (chat_stores_message_verbatim scripted_env (mkChatRequest "s1" "  hi ") w).
    reflexivity.
Defined.

Lemma run_llm_answer env sp msgs (w w' : World env) res :
  _run_llm_with_tools sp msgs w = (Ok res, w') →
  ∃ blocks, answer res = _extract_text_from_blocks blocks.
Proof.
  destruct (messages_create env (first_request sp msgs) (ext w))
    as [[blocks|e] x1] eqn:H1.
  - destruct (decide (tool_uses blocks = [])) as [Hu|Hu].
    + rewrite (run_llm_no_tools env _ _ _ _ _ H1 Hu). intros [= <- _]. eauto.
    + destruct (messages_create env
        (followup_request sp msgs blocks (results_of env x1 blocks)) x1)
        as [[b2|e] x2] eqn:H2;
        rewrite (run_llm_with_tools env _ _ _ _ _ _ _ H1 Hu H2); [|done].
      intros [= <- _]. eauto.
  - by rewrite (run_llm_first_raises env _ _ _ _ _ H1).
Qed.

(** The answer of a successful turn has no whitespace at either end, and it
    is this trimmed text that is stored as the last message of the session,
    with the role [assistant]. *)
Theorem answer_is_trimmed env (req : ChatRequest) (w : World env) resp :
  (chat req w).1 = Ok resp →
  strip (answer resp) = answer resp
  ∧ starts_clean (answer resp) = true
  ∧ last (history_of (session_id req) (chat req w).2)
    = Some (mkMessage "assistant" (CText (answer resp))).
Proof.
  intros Hok.
  destruct (decide (strip (message req) = "")) as [Hb|Hne].
  { rewrite (chat_blank env req w Hb) in Hok. done. }
  assert (∃ blocks, answer resp = _extract_text_from_blocks blocks)
    as [blocks Hans].
  { destruct (build_context_frame env (message req) 3 (after_user req w))
      as (rc & x & Hc).
    rewrite (chat_turn env req w _ _ Hne Hc) in Hok.
    destruct rc as [ctx|e]; [|done].
    destruct (_run_llm_with_tools _ _ _) as [[res|e] w3] eqn:Hrun; [|done].
    injection Hok as <-. by eapply run_llm_answer. }
  split_and!.
  - rewrite Hans. apply strip_idem.
  - rewrite Hans. unfold _extract_text_from_blocks, strip.
    apply rstrip_starts_clean, lstrip_starts_clean.
  - pose proof (chat_sessions env req w Hne) as Hs. rewrite Hok in Hs.
    set (h := history_of (session_id req) w) in *.
    unfold history_of. rewrite Hs, lookup_insert_eq. simpl.
    by rewrite (last_app _ [_; _]).
Qed.

Lemma answer_is_trimmed_witness :
  let w := fresh [Ok [TextBlock "  Hello."; OtherBlock; TextBlock ("Bye. " +:+ nl)]]
             no_snippets in
  (chat order_request w).1 = Ok (mkChatResponse ("Hello." +:+ nl +:+ "Bye.") [])
  ∧ strip ("Hello." +:+ nl +:+ "Bye.") = "Hello." +:+ nl +:+ "Bye.".
Proof.
  intros w.
  assert (H : (chat order_request w).1
              = Ok (mkChatResponse ("Hello." +:+ nl +:+ "Bye.") []))
    by reflexivity.
  split; [exact H|].
  by destruct (answer_is_trimmed scripted_env order_request w _ H) as [Hs _].
Defined.

(** When the first response asks for tools, the answer of the turn is taken
    from the follow-up response alone: text blocks that came with the tool
    requests in the first response are not part of it. *)
Theorem answer_comes_from_followup env (req : ChatRequest) (w : World env)
    ctx first x1 second x2 :
  strip (message req) ≠ "" →
  second_completion_gives req w ctx first x1 (Ok second) x2 →
  ∃ resp, (chat req w).1 = Ok resp
          ∧ answer resp = strip (join nl (text_blocks second)).
Proof.
  intros Hne H2.
  destruct (chat_with_tools env req w ctx Hne first x1 _ x2 H2) as [-> _].
  eauto.
Qed.

Lemma answer_comes_from_followup_witness :
  let w := fresh [Ok [TextBlock "Let me check."; order_tool_use];
                  Ok [TextBlock "Your order 123 has shipped."]] no_snippets in
  ∃ resp, (chat order_request w).1 = Ok resp
          ∧ answer resp = "Your order 123 has shipped.".
Proof.
  intros w.
  destruct (answer_comes_from_followup scripted_env order_request w ""
              [TextBlock "Let me check."; order_tool_use]
              (mkScript [Ok [TextBlock "Your order 123 has shipped."]] no_snippets)
              [TextBlock "Your order 123 has shipped."]
              (mkScript [] no_snippets))
    as (resp & Hr & Ha).
  - discriminate.
  - split; [|split]; [eexists; split; vm_compute; reflexivity|discriminate|].
    vm_compute. reflexivity.
  - exists resp. split; [exact Hr|]. etrans; [exact Ha|reflexivity].
Defined.

Lemma turn_messages_spec env (req : ChatRequest) (w : World env) :
  turn_messages req w = history_of (session_id req) w ++ [user_message req].
Proof.
  unfold turn_messages. rewrite format_history_id, after_user_spec.
  apply history_of_insert.
Qed.

(** What the model is sent.  The first request of a turn carries the model
    name, the token limit, the system prompt built from the context block,
    the tool specifications, and as messages the stored history of the
    session followed by the new user message.  When the response asks for
    tools, the second request carries the same model, limit and system
    prompt and no tool specification; its messages are those of the first
    request, then the assistant message holding the blocks of the first
    response unchanged, then one user message holding the [tool_result]
    blocks: one per [tool_use] block, with the same ids in the same order,
    each holding the string form of the result recorded in the matching
    entry of [tool_calls]. *)
Theorem turn_request_contents env (req : ChatRequest) (w : World env) ctx blocks x1 :
  strip (message req) ≠ "" →
  first_completion_gives req w ctx (Ok blocks) x1 →
  let history := history_of (session_id req) w ++ [user_message req] in
  ∃ evs, trace (chat req w).2 = trace w ++ evs
    ∧ head (creations evs)
      = Some (mkRequest ANTHROPIC_MODEL 500 (build_system_prompt ctx) history
                (Some get_tool_specs))
    ∧ (tool_uses blocks ≠ [] →
       ∃ results,
         creations evs !! 1%nat
         = Some (mkRequest ANTHROPIC_MODEL 500 (build_system_prompt ctx)
                   (history ++ [mkMessage "assistant" (CBlocks blocks);
                                mkMessage "user" (CToolResults results)])
                   None)
         ∧ tool_use_id <$> results
           = (λ u : string * string * pydict, u.1.1) <$> tool_uses blocks
         ∧ ∀ resp, (chat req w).1 = Ok resp →
             tr_content <$> results
             = (λ c, py_str env (tc_result c)) <$> tool_calls resp).
Proof.
  intros Hne H1 history.
  assert (Hreq : turn_first req w ctx
                 = mkRequest ANTHROPIC_MODEL 500 (build_system_prompt ctx) history
                     (Some get_tool_specs)).
  { unfold turn_first, first_request. by rewrite turn_messages_spec. }
  destruct (decide (tool_uses blocks = [])) as [Hu|Hu].
  - destruct (chat_no_tools env req w ctx Hne blocks x1 H1 Hu) as [_ Ht].
    eexists. split; [exact Ht|]. simpl. by rewrite Hreq.
  - destruct (messages_create env (turn_followup req w ctx blocks x1) x1)
      as [r2 x2] eqn:E2.
    destruct (chat_with_tools env req w ctx Hne blocks x1 r2 x2) as [Hr Ht];
      [done|].
    eexists. split; [exact Ht|].
    rewrite !creations_app, creations_tool_traces. simpl. split; [by rewrite Hreq|].
    intros _. exists (results_of env x1 blocks). split_and!.
    + unfold turn_followup, followup_request. by rewrite turn_messages_spec.
    + unfold results_of. by rewrite <- list_fmap_compose.
    + intros resp Hresp. rewrite Hr in Hresp. destruct r2; [|done].
      injection Hresp as <-. simpl. unfold results_of, calls_of.
      by rewrite <- !list_fmap_compose.
Qed.

Lemma turn_request_contents_witness :
  let w := fresh [Ok [order_tool_use]; Ok [TextBlock "Your order 123 has shipped."]]
             no_snippets in
  ∃ evs, trace (chat order_request w).2 = evs
    ∧ messages <$> head (creations evs) = Some [user_message order_request]
    ∧ tools <$> creations evs !! 1%nat = Some None.
Proof.
  intros w.
  destruct (turn_request_contents scripted_env order_request w "" [order_tool_use]
              (mkScript [Ok [TextBlock "Your order 123 has shipped."]] no_snippets))
    as (evs & Ht & Hh & Hf).
  - discriminate.
  - eexists. split; vm_compute; reflexivity.
  - exists evs. split; [exact Ht|]. split; [by rewrite Hh|].
    destruct Hf as (results & -> & _); [discriminate|reflexivity].
Defined.

(** What a turn leaves for the next one.  After a successful turn, the next
    request of the same session sends the earlier history, the user message
    and the answer of that turn, and then its own message.  After a turn
    that failed past validation, the unanswered user message is still there:
    the next request of the session sends two user messages in a row.  A
    request of another session sends nothing of this turn. *)
Theorem next_turn_messages env (req1 req2 : ChatRequest) (w : World env) :
  (∀ resp, (chat req1 w).1 = Ok resp → session_id req2 = session_id req1 →
     turn_messages req2 (chat req1 w).2
     = history_of (session_id req1) w
       ++ [user_message req1; assistant_message (answer resp); user_message req2])
  ∧ (∀ e, (chat req1 w).1 = Raise e → strip (message req1) ≠ "" →
     session_id req2 = session_id req1 →
     turn_messages req2 (chat req1 w).2
     = history_of (session_id req1) w ++ [user_message req1; user_message req2])
  ∧ (session_id req2 ≠ session_id req1 →
     turn_messages req2 (chat req1 w).2 = turn_messages req2 w).
Proof.
  split_and!.
  - intros resp Hok Hsid.
    destruct (decide (strip (message req1) = "")) as [Hb|Hne].
    { rewrite (chat_blank env req1 w Hb) in Hok. done. }
    pose proof (chat_sessions env req1 w Hne) as Hs. rewrite Hok in Hs.
    rewrite turn_messages_spec, Hsid.
    set (h := history_of (session_id req1) w) in *.
    unfold history_of. rewrite Hs, lookup_insert_eq. simpl.
    by rewrite <- app_assoc.
  - intros e He Hne Hsid.
    pose proof (chat_sessions env req1 w Hne) as Hs. rewrite He in Hs.
    rewrite turn_messages_spec, Hsid.
    set (h := history_of (session_id req1) w) in *.
    unfold history_of. rewrite Hs, lookup_insert_eq. simpl.
    by rewrite <- app_assoc.
  - intros Hsid. rewrite !turn_messages_spec. f_equal.
    destruct (decide (strip (message req1) = "")) as [Hb|Hne].
    { by rewrite (chat_blank env req1 w Hb). }
    unfold history_of. rewrite (chat_sessions env req1 w Hne).
    by rewrite lookup_insert_ne.
Qed.

Lemma next_turn_messages_witness :
  let w := fresh [Raise (APIStatusError "overloaded")] no_snippets in
  turn_messages (mkChatRequest "s1" "Hello?") (chat order_request w).2
  = [user_message order_request; mkMessage "user" (CText "Hello?")]
  ∧ turn_messages (mkChatRequest "s2" "Hello?") (chat order_request w).2
    = [mkMessage "user" (CText "Hello?")].
Proof.
  intros w.
  destruct (next_turn_messages scripted_env order_request
              (mkChatRequest "s1" "Hello?") w) as (_ & H2 & _).
  destruct (next_turn_messages scripted_env order_request
              (mkChatRequest "s2" "Hello?") w) as (_ & _ & H3).
  split.
  - etrans; [apply (H2 (HTTPException 500 "Anthropic API error: overloaded"));
             [reflexivity|discriminate|reflexivity]|reflexivity].
  - etrans; [apply H3; discriminate|reflexivity].
Defined.
